(** * Package reconciliation of [cleanup_global_env.py]

    A shallow embedding of the cleanup script: the text primitives the
    manifest parser relies on, the classification of global packages,
    the backup writer and the interactive main flow, followed by the
    properties of the specification.

    Conventions.  Python [str] values are modelled as [string] (sequences
    of 8-bit characters); [str.lower] and [str.strip] are the ASCII
    restrictions of the Python functions.  A [dict] from names to
    versions is a [gmap string string], a [set] of names a [gset string].
    Loops over a dict or a set are folds over the list of its elements;
    every loop of the script only accumulates into sets, so the order of
    that list does not matter for the result.

    The functions that talk to the outside are written in a monad that
    reads the surroundings of the run (which paths exist, what the
    package lister, the disk and the uninstaller answer, whether a file
    can be read, the clock),
    threads a state (the keys still to be typed, the text files, what
    was printed, the external actions taken) and propagates Python
    exceptions.  [KeyboardInterrupt] can arrive wherever the script
    blocks: at a prompt, while a subprocess runs, while the backup is
    written.  The console code page call made at import time on Windows
    has no bearing on the flow and is left out.

    The functions of the chat page ([chat_utils.py], and [guery_graph]
    of [graph_utils.py]) are embedded in the module [Chat]: they pass
    along the one entry of the session state that they use and the
    widgets they put on the page. *)

From Stdlib Require Import Ascii String.
From stdpp Require Import base option list sorting gmap strings pretty.

Local Open Scope string_scope.
#[local] Set Warnings "-clear-no-such-hyp".

(** ** Text primitives *)

Module Text.

(** [c.lower()] for a single ASCII character. *)
Definition lower_ascii (c : ascii) : ascii :=
  let n := N_of_ascii c in
  if ((65 <=? n) && (n <=? 90))%N then ascii_of_N (n + 32) else c.

(** [s.lower()] *)
Fixpoint lower (s : string) : string :=
  match s with
  | EmptyString => EmptyString
  | String c s' => String (lower_ascii c) (lower s')
  end.

(** The characters [str.strip()] removes: tab, line feed, vertical tab,
    form feed, carriage return, the four separators 0x1c-0x1f, space. *)
Definition is_space (c : ascii) : bool :=
  let n := N_of_ascii c in
  (((9 <=? n) && (n <=? 13)) || ((28 <=? n) && (n <=? 32)))%N.

Fixpoint lstrip (s : string) : string :=
  match s with
  | EmptyString => EmptyString
  | String c s' => if is_space c then lstrip s' else s
  end.

Fixpoint rstrip (s : string) : string :=
  match s with
  | EmptyString => EmptyString
  | String c s' =>
      match rstrip s' with
      | EmptyString => if is_space c then EmptyString else String c EmptyString
      | t => String c t
      end
  end.

(** [s.strip()] *)
Definition strip (s : string) : string := rstrip (lstrip s).

(** [s.startswith(p)] *)
Definition startswith (p s : string) : bool := String.prefix p s.

(** [s.split(sep)[0]]: the text before the leftmost occurrence of the
    (non-empty) separator, the whole of [s] when there is none. *)
Fixpoint split_head (sep s : string) : string :=
  if startswith sep s then EmptyString
  else match s with
       | EmptyString => EmptyString
       | String c s' => String c (split_head sep s')
       end.

Definition LF : ascii := ascii_of_N 10.
Definition CR : ascii := ascii_of_N 13.

(** Text-mode reading translates the line endings CR LF and CR to LF. *)
Fixpoint universal_newlines (s : string) : string :=
  match s with
  | EmptyString => EmptyString
  | String c s' =>
      if Ascii.eqb c CR then
        match s' with
        | String c' s'' =>
            if Ascii.eqb c' LF then universal_newlines s'
            else String LF (universal_newlines s')
        | EmptyString => String LF EmptyString
        end
      else String c (universal_newlines s')
  end.

(** [for line in f]: the lines of a text, each with its terminating
    line feed; a last line without one is kept as it is. *)
Fixpoint file_lines (s : string) : list string :=
  match s with
  | EmptyString => []
  | String c s' =>
      if Ascii.eqb c LF then String c EmptyString :: file_lines s'
      else match file_lines s' with
           | [] => [String c EmptyString]
           | l :: ls => String c l :: ls
           end
  end.

(** [s * n] *)
Fixpoint repeat_string (s : string) (n : nat) : string :=
  match n with
  | O => EmptyString
  | S n' => s +:+ repeat_string s n'
  end.

(** [f"{s:<w}"]: pad on the right with spaces up to width [w]. *)
Definition ljust (w : nat) (s : string) : string :=
  s +:+ repeat_string " " (w - String.length s).

(** [s[:n]] *)
Fixpoint first_chars (n : nat) (s : string) : string :=
  match n, s with
  | S n', String c s' => String c (first_chars n' s')
  | _, _ => EmptyString
  end.

End Text.

Import Text.

(** ** Configuration constants *)

(** Essential development tools to keep (even if in venv). *)
Definition ESSENTIAL_TOOLS : gset string :=
  {[ "jupyter"; "jupyterlab"; "ipython"; "ipykernel"; "notebook";
     "pip"; "setuptools"; "wheel"; "pipx"; "black"; "pytest";
     "flake8"; "mypy"; "autopep8" ]}.

(** Core system packages that should never be removed. *)
Definition CORE_PACKAGES : gset string :=
  {[ "pip"; "setuptools"; "wheel" ]}.

(** ** Manifest parsing *)

(** The chain of [split(..)[0]] calls of [load_requirements]. *)
Definition strip_version_specifier (line : string) : string :=
  split_head "["
    (split_head "<"
      (split_head ">"
        (split_head "<="
          (split_head ">="
            (split_head "==" line))))).

(** The body of the loop of [load_requirements] for one line of the
    file: [Some] name when the line contributes an entry. *)
Definition requirement_of_line (line : string) : option string :=
  let line := strip line in
  if negb (String.eqb line "") && negb (startswith "#" line) then
    let pkg_name := strip (strip_version_specifier line) in
    Some (lower pkg_name)
  else None.

(** The loop of [load_requirements] over an open file with the given
    contents. *)
Definition parse_requirements (contents : string) : gset string :=
  foldl (λ packages line,
           match requirement_of_line line with
           | Some name => {[ name ]} ∪ packages
           | None => packages
           end)
        ∅ (file_lines (universal_newlines contents)).

(** ** Classification *)

Definition identify_project_dependencies
    (global_packages venv_packages : gmap string string)
    (requirements : gset string) : gset string :=
  let project_deps :=
    foldl (λ deps req,
             if decide (req ∈ dom global_packages) then {[ req ]} ∪ deps
             else deps)
          ∅ (elements requirements) in
  let common_packages := dom global_packages ∩ dom venv_packages in
  foldl (λ deps pkg,
           if decide (pkg ∉ ESSENTIAL_TOOLS) then {[ pkg ]} ∪ deps
           else deps)
        project_deps (elements common_packages).

(** One iteration of the loop of [identify_safe_to_remove]; the pair is
    [(safe_to_remove, keep)]. *)
Definition classify_package
    (venv_packages : gmap string string)
    (requirements project_deps : gset string)
    (acc : gset string * gset string) (pkg_name : string)
  : gset string * gset string :=
  let '(safe_to_remove, keep) := acc in
  let pkg_lower := lower pkg_name in
  if decide (pkg_lower ∈ CORE_PACKAGES) then
    (safe_to_remove, {[ pkg_name ]} ∪ keep)
  else if decide (pkg_lower ∈ ESSENTIAL_TOOLS) then
    (safe_to_remove, {[ pkg_name ]} ∪ keep)
  else
    let declared_rule :=
      if decide (pkg_lower ∈ requirements) then
        if decide (pkg_lower ∈ dom venv_packages) then
          ({[ pkg_name ]} ∪ safe_to_remove, keep)
        else acc
      else acc in
    if decide (pkg_name ∈ project_deps) then
      if decide (pkg_lower ∈ dom venv_packages) then
        ({[ pkg_name ]} ∪ safe_to_remove, keep)
      else declared_rule
    else declared_rule.

Definition identify_safe_to_remove
    (global_packages venv_packages : gmap string string)
    (requirements : gset string) : gset string * gset string :=
  let project_deps :=
    identify_project_dependencies global_packages venv_packages requirements in
  foldl (classify_package venv_packages requirements project_deps)
        (∅, ∅) (map_to_list global_packages).*1.

(** A package protected by one of the two allow-lists. *)
Definition protected (pkg : string) : Prop :=
  lower pkg ∈ CORE_PACKAGES ∨ lower pkg ∈ ESSENTIAL_TOOLS.

Global Instance protected_dec pkg : Decision (protected pkg).
Proof. unfold protected. apply _. Defined.

(** Follows the specification's words: the bare name of a manifest line
    ends where the first version specifier ([==], [>=], [<=], [>], [<])
    or extras bracket ([[]) begins. *)
Definition specifier_starts (s : string) : bool :=
  startswith "==" s || startswith ">=" s || startswith "<=" s
  || startswith ">" s || startswith "<" s || startswith "[" s.

Fixpoint bare_name_spec (s : string) : string :=
  if specifier_starts s then EmptyString
  else match s with
       | EmptyString => EmptyString
       | String c s' => String c (bare_name_spec s')
       end.

(** ** Backup file *)

(** The order of [sorted(global_packages.items())]: pairs are compared
    by name, then by version. *)
Definition item_le (a b : string * string) : Prop :=
  if decide (a.1 = b.1) then String.le a.2 b.2 else String.le a.1 b.1.

Global Instance item_le_dec : RelDecision item_le.
Proof. intros a b. unfold item_le. destruct (decide (a.1 = b.1)); apply _. Defined.

Definition NL : string := String LF EmptyString.

(** [f"{pkg_name}=={version}\n"] *)
Definition backup_line (item : string * string) : string :=
  item.1 +:+ "==" +:+ item.2 +:+ NL.

(** Everything [create_backup] writes to the backup file. *)
Definition backup_contents (global_packages : gmap string string) : string :=
  String.concat "" (backup_line <$> merge_sort item_le (map_to_list global_packages)).

(** The names and versions for which a backup file reads back: a name
    without white space, comparison signs, bracket or comment marker, a
    version without line break. *)
Definition name_char (c : ascii) : bool :=
  negb (is_space c) && negb (Ascii.eqb c "=") && negb (Ascii.eqb c "<")
  && negb (Ascii.eqb c ">") && negb (Ascii.eqb c "[") && negb (Ascii.eqb c "#").

Definition line_char (c : ascii) : bool :=
  negb (Ascii.eqb c LF) && negb (Ascii.eqb c CR).

Fixpoint all_chars (P : ascii → bool) (s : string) : bool :=
  match s with
  | EmptyString => true
  | String c s' => P c && all_chars P s'
  end.

Definition plain_name (name : string) : bool := all_chars name_char name.
Definition one_line (version : string) : bool := all_chars line_char version.

(** The packages whose backup line reads back. *)
Definition readable (item : string * string) : Prop :=
  plain_name item.1 = true ∧ one_line item.2 = true.

(** ** The world of a run *)

(** Python exceptions that leave a function: [sys.exit], Ctrl-C, and any
    subclass of [Exception] with its message. *)
Inductive exn :=
| SystemExit (code : Z)
| KeyboardInterrupt
| Exception (msg : string).

Inductive result (A : Type) :=
| Return (a : A)
| Raise (e : exn).
Arguments Return {A} a.
Arguments Raise {A} e.

(** What the user does at a prompt. *)
Inductive keyboard :=
| Typed (line : string)
| CtrlC
| EndOfInput.

(** What [pip list --format=json] followed by [json.loads] and the dict
    comprehension comes to. *)
Inductive lister_outcome :=
| Listed (packages : list (string * string))
| ListerFailed (stderr : string)
| ListerGarbled (err : string)
| ListerRaised (err : string)
| ListerInterrupted.

(** What opening and writing a file comes to.  [open(path, 'w')] can
    raise or be interrupted before anything is changed.  Once the file
    is open it has been created or emptied, and a write (or the flush at
    closing) that then raises or is interrupted leaves in it the
    characters written so far. *)
Inductive write_outcome :=
| Written
| WriteFailed (err : string)
| WriteInterrupted
| WriteBroken (written : nat) (err : string)
| WriteCut (written : nat).

(** What opening and reading a file that exists comes to: the text is
    read, or [open] or the decoding of the contents raises. *)
Inductive read_outcome :=
| ReadOk
| ReadFailed (err : string).

(** What [pip uninstall -y] comes to. *)
Inductive uninstaller_outcome :=
| Uninstalled
| UninstallFailed (err : string)
| UninstallRaised (err : string)
| UninstallInterrupted.

(** The surroundings of a run, which the script does not change. *)
Record env := {
  script_dir : string;
  executable : string;
  path_exists : string → bool;
  lister : string → lister_outcome;
  clock : string;
  disk : string → write_outcome;
  uninstaller : list string → uninstaller_outcome;
  reader : string → string → read_outcome;
}.

(** The external actions of a run, in the order they happen. *)
Inductive effect :=
| Asked (prompt answer : string)
| ListerInvoked (python : string)
| BackupWritten (path contents : string)
| BackupFailed (path : string)
| UninstallerInvoked (packages : list string).

Record state := {
  stdin : list keyboard;
  files : gmap string string;
  stdout : list string;
  effects : list effect;
}.

Definition M (A : Type) : Type := env → state → result A * state.

Definition ret {A} (a : A) : M A := λ _ st, (Return a, st).

Definition bind {A B} (m : M A) (k : A → M B) : M B := λ e st,
  match m e st with
  | (Return a, st') => k a e st'
  | (Raise x, st') => (Raise x, st')
  end.

Definition raise {A} (x : exn) : M A := λ _ st, (Raise x, st).

Global Instance M_ret : MRet M := @ret.
Global Instance M_bind : MBind M := λ A B k m, bind m k.

(** [try: m except ...: handler] *)
Definition try_except {A} (m : M A) (handler : exn → M A) : M A := λ e st,
  match m e st with
  | (Return a, st') => (Return a, st')
  | (Raise x, st') => handler x e st'
  end.

Definition ask_env : M env := λ e st, (Return e, st).

Definition log_effect (x : effect) : M unit := λ _ st,
  (Return tt,
   {| stdin := stdin st; files := files st; stdout := stdout st;
      effects := effects st ++ [x] |}).

(** [print(s)] *)
Definition print (s : string) : M unit := λ _ st,
  (Return tt,
   {| stdin := stdin st; files := files st; stdout := stdout st ++ [s];
      effects := effects st |}).

(** [sys.exit(code)] *)
Definition sys_exit {A} (code : Z) : M A := raise (SystemExit code).

(** [input(prompt)]: the next thing the user does; a closed input
    stream raises [EOFError]. *)
Definition input (prompt : string) : M string := λ e st,
  match stdin st with
  | Typed line :: rest =>
      (Return line,
       {| stdin := rest; files := files st; stdout := stdout st;
          effects := effects st ++ [Asked prompt line] |})
  | CtrlC :: rest =>
      (Raise KeyboardInterrupt,
       {| stdin := rest; files := files st; stdout := stdout st;
          effects := effects st |})
  | EndOfInput :: _ | [] => (Raise (Exception "EOF when reading a line"), st)
  end.

(** [Path(p).exists()] for the text files of the model. *)
Definition file_exists (path : string) : M bool := λ _ st,
  (Return (bool_decide (is_Some (files st !! path))), st).

(** [with open(path, 'w') as f: f.write(contents)] *)
Definition write_file (path contents : string) : M unit := λ e st,
  match disk e path with
  | Written =>
      (Return tt,
       {| stdin := stdin st; files := <[path := contents]> (files st);
          stdout := stdout st;
          effects := effects st ++ [BackupWritten path contents] |})
  | WriteFailed err =>
      (Raise (Exception err),
       {| stdin := stdin st; files := files st; stdout := stdout st;
          effects := effects st ++ [BackupFailed path] |})
  | WriteInterrupted => (Raise KeyboardInterrupt, st)
  | WriteBroken written err =>
      (Raise (Exception err),
       {| stdin := stdin st;
          files := <[path := first_chars written contents]> (files st);
          stdout := stdout st;
          effects := effects st ++ [BackupFailed path] |})
  | WriteCut written =>
      (Raise KeyboardInterrupt,
       {| stdin := stdin st;
          files := <[path := first_chars written contents]> (files st);
          stdout := stdout st;
          effects := effects st |})
  end.

(** [for x in l: body(x)] *)
Fixpoint for_each {A} (l : list A) (body : A → M unit) : M unit :=
  match l with
  | [] => ret tt
  | x :: l' => body x;; for_each l' body
  end.

(** [a / b] on paths *)
Definition path_join (a b : string) : string := a +:+ "/" +:+ b.

Definition rule : string := repeat_string "=" 60.

(** ** The functions of the script *)

(** The interpreter whose packages [get_packages] lists: the one of the
    virtual environment when a path is given, the running one
    otherwise. *)
Definition interpreter (e : env) (venv_path : option string) : string :=
  match venv_path with
  | Some venv_path => path_join (path_join venv_path "Scripts") "python.exe"
  | None => executable e
  end.

Definition get_packages (venv_path : option string) : M (gmap string string) :=
  e ← ask_env;
  python ← match venv_path with
            | Some venv_path =>
                let python_exe := path_join (path_join venv_path "Scripts") "python.exe" in
                if negb (path_exists e python_exe) then
                  raise (Exception ("Virtual environment not found at " +:+ venv_path))
                else ret python_exe
            | None => ret (executable e)
            end;
  log_effect (ListerInvoked python) ;;
  match lister e python with
  | Listed packages =>
      ret (foldl (λ (d : gmap string string) pkg, <[lower pkg.1 := pkg.2]> d) ∅ packages)
  | ListerFailed stderr =>
      print ("Error getting packages: " +:+ stderr) ;;
      ret ∅
  | ListerGarbled err =>
      print ("Error parsing package list: " +:+ err) ;;
      ret ∅
  | ListerRaised err => raise (Exception err)
  | ListerInterrupted => raise KeyboardInterrupt
  end.

Definition load_requirements (requirements_file : string) : M (gset string) := λ e st,
  match files st !! requirements_file with
  | None => (Return ∅, st)
  | Some contents =>
      match reader e requirements_file contents with
      | ReadOk => (Return (parse_requirements contents), st)
      | ReadFailed err => (Raise (Exception err), st)
      end
  end.

Definition create_backup (global_packages : gmap string string)
    (backup_file : string) : M bool :=
  write_file backup_file (backup_contents global_packages) ;;
  print ("[OK] Backup created: " +:+ backup_file) ;;
  file_exists backup_file.

Definition sorted (packages : gset string) : list string :=
  merge_sort String.le (elements packages).

Definition uninstall_packages (packages : gset string) (dry_run : bool) : M unit :=
  if decide (packages = ∅) then
    print "No packages to uninstall."
  else if dry_run then
    print (NL +:+ rule) ;;
    print "DRY RUN - No packages will be uninstalled" ;;
    print rule ;;
    for_each (sorted packages) (λ pkg, print ("  Would uninstall: " +:+ pkg)) ;;
    print (NL +:+ "Total packages to uninstall: " +:+ pretty (size packages))
  else
    print (NL +:+ "Uninstalling " +:+ pretty (size packages) +:+ " packages...") ;;
    e ← ask_env;
    log_effect (UninstallerInvoked (elements packages)) ;;
    match uninstaller e (elements packages) with
    | Uninstalled =>
        print (NL +:+ "[OK] Successfully uninstalled " +:+ pretty (size packages)
               +:+ " packages")
    | UninstallFailed err =>
        print (NL +:+ "[ERROR] Error during uninstallation: " +:+ err) ;;
        sys_exit 1
    | UninstallRaised err => raise (Exception err)
    | UninstallInterrupted => raise KeyboardInterrupt
    end.

Definition continue_prompt : string := "Continue anyway? (y/N): ".
Definition backup_prompt : string :=
  NL +:+ "Create backup and uninstall these packages? (y/N): ".
Definition final_prompt : string := "Type 'yes' to confirm: ".

Definition main : M unit :=
  print "Global Environment Cleanup Script";;
  print rule;;
  e ← ask_env;
  (* Does the venv exist? *)
  let venv_path := path_join (script_dir e) "venv" in
  venv_packages ←
    (if negb (path_exists e venv_path) then
       print (NL +:+ "[WARNING] Virtual environment not found at './venv'");;
       response ← input continue_prompt;
       if decide (lower response ≠ "y") then
         print "Aborted.";;
         sys_exit 0
       else ret (∅ : gmap string string)
     else
       print (NL +:+ "[OK] Found virtual environment at: " +:+ venv_path);;
       venv_packages ← get_packages (Some venv_path);
       print ("  Packages in venv: " +:+ pretty (size venv_packages));;
       ret venv_packages);
  (* Get global packages *)
  print (NL +:+ "[OK] Analyzing global environment...");;
  global_packages ← get_packages None;
  print ("  Packages in global: " +:+ pretty (size global_packages));;
  (* Load requirements *)
  requirements ← load_requirements "requirements.txt";
  (if decide (requirements ≠ ∅) then
     print ("[OK] Loaded " +:+ pretty (size requirements)
            +:+ " packages from requirements.txt")
   else ret tt);;
  (* Identify safe to remove *)
  let classified :=
    identify_safe_to_remove global_packages venv_packages requirements in
  let safe_to_remove := classified.1 in
  let keep := classified.2 in
  (* Display results *)
  print (NL +:+ rule);;
  print "ANALYSIS RESULTS";;
  print rule;;
  print (NL +:+ "Total packages in global: " +:+ pretty (size global_packages));;
  print ("Packages to keep: " +:+ pretty (size keep));;
  print ("Packages safe to remove: " +:+ pretty (size safe_to_remove));;
  (if decide (safe_to_remove ≠ ∅) then
     print (NL +:+ NL +:+ "Packages safe to remove from global environment:");;
     print (repeat_string "-" 60);;
     for_each (sorted safe_to_remove) (λ pkg,
       let version := default "unknown" (global_packages !! pkg) in
       let in_venv :=
         if decide (lower pkg ∈ dom venv_packages) then "[OK]" else "[--]" in
       print ("  " +:+ in_venv +:+ " " +:+ ljust 30 pkg +:+ " " +:+ version))
   else ret tt);;
  if decide (safe_to_remove = ∅) then
    print (NL +:+ "[OK] No packages identified for removal. "
           +:+ "Your global environment looks clean!")
  else
    (* Create backup *)
    let backup_file := "global_packages_backup_" +:+ clock e +:+ ".txt" in
    print (NL +:+ rule);;
    print "BACKUP & UNINSTALL OPTIONS";;
    print rule;;
    (* Dry run first *)
    print (NL +:+ "1. DRY RUN (Preview only - no changes):");;
    uninstall_packages safe_to_remove true;;
    (* Ask for confirmation *)
    print (NL +:+ rule);;
    response ← input backup_prompt;
    if decide (lower response ≠ "y") then
      print (NL +:+ "Aborted. No packages were uninstalled.")
    else
      (* Create backup *)
      print (NL +:+ "Creating backup...");;
      saved ← create_backup global_packages backup_file;
      (if saved : bool then
         print ("   Backup saved to: " +:+ backup_file);;
         print ("   You can restore packages with: pip install -r " +:+ backup_file)
       else ret tt);;
      (* Final confirmation *)
      print (NL +:+ rule);;
      print ("[WARNING] About to uninstall " +:+ pretty (size safe_to_remove)
             +:+ " packages from global environment");;
      final_confirm ← input final_prompt;
      if decide (lower final_confirm ≠ "yes") then
        print (NL +:+ "Aborted. No packages were uninstalled.")
      else
        (* Uninstall *)
        uninstall_packages safe_to_remove false;;
        print (NL +:+ rule);;
        print "[OK] Cleanup complete!";;
        print ("[OK] Backup saved to: " +:+ backup_file);;
        print (NL +:+ "Tip: Always use virtual environments for projects "
               +:+ "to avoid this in the future!").

(** The [if __name__ == '__main__'] block. *)
Definition script : M unit :=
  try_except main (λ x,
    match x with
    | KeyboardInterrupt =>
        print (NL +:+ NL +:+ "Aborted by user.");;
        sys_exit 0
    | Exception msg =>
        print (NL +:+ "[ERROR] Error: " +:+ msg);;
        sys_exit 1
    | SystemExit code => raise (SystemExit code)
    end).

(** The exit status of the interpreter: 0 when the script runs to its
    end, the argument of [sys.exit] otherwise. *)
Definition exit_status {A} (r : result A) : Z :=
  match r with
  | Return _ => 0
  | Raise (SystemExit code) => code
  | Raise _ => 1
  end.

(** A run starts with nothing printed and nothing done. *)
Definition initial (keys : list keyboard) (fs : gmap string string) : state :=
  {| stdin := keys; files := fs; stdout := []; effects := [] |}.

Definition run (e : env) (keys : list keyboard) (fs : gmap string string)
  : Z * list effect :=
  let r := script e (initial keys fs) in
  (exit_status r.1, effects r.2).

(** ** Reasoning about runs *)

(** What a claim about a run can see of a state: the keys not yet read,
    the files, and the external actions so far. *)
Definition observed (st : state) (keys : list keyboard)
    (fs : gmap string string) (trace : list effect) : Prop :=
  stdin st = keys ∧ files st = fs ∧ effects st = trace.

(** [wp m e st Q]: running [m] from [st] ends in a result and a state
    that satisfy [Q]. *)
Definition wp {A} (m : M A) (e : env) (st : state)
    (Q : result A → state → Prop) : Prop :=
  Q (m e st).1 (m e st).2.

(** The package lists the uninstaller was invoked with, in order. *)
Definition uninstalls (trace : list effect) : list (list string) :=
  omap (λ x, match x with UninstallerInvoked packages => Some packages | _ => None end)
       trace.

(** The answer each prompt of the script takes as a yes. *)
Definition expected_answer (prompt : string) : string :=
  if decide (prompt = final_prompt) then "yes" else "y".

(** A prompt that was not answered with a yes. *)
Definition declined (x : effect) : Prop :=
  match x with
  | Asked prompt answer => lower answer ≠ expected_answer prompt
  | _ => False
  end.

(** The exit status the [__main__] block gives to a result of [main]. *)
Definition status_of (r : result unit) : Z :=
  match r with
  | Return _ => 0
  | Raise (SystemExit code) => code
  | Raise KeyboardInterrupt => 0
  | Raise (Exception _) => 1
  end.

(** What must have happened before the uninstaller may run: a backup
    written and both confirmations given. *)
Definition confirmed (seen : list effect) : Prop :=
  (∃ path contents, BackupWritten path contents ∈ seen) ∧
  (∃ answer, Asked backup_prompt answer ∈ seen ∧ lower answer = "y") ∧
  (∃ answer, Asked final_prompt answer ∈ seen ∧ lower answer = "yes").

(** Every invocation of the uninstaller in [trace] comes after the
    backup and the confirmations, [seen] being what happened before
    [trace]. *)
Fixpoint guarded (seen trace : list effect) : Prop :=
  match trace with
  | [] => True
  | x :: rest =>
      match x with
      | UninstallerInvoked _ => confirmed seen
      | _ => True
      end ∧ guarded (seen ++ [x]) rest
  end.

(** The facts about a result of [main] and the trace it leaves that the
    claims about the main flow rest on. *)
Definition main_facts (e : env) (r : result unit) (trace : list effect) : Prop :=
  guarded [] trace ∧
  (∀ path, BackupFailed path ∈ trace →
     uninstalls trace = [] ∧ ∃ msg, r = Raise (Exception msg)) ∧
  (∀ x, x ∈ trace → declined x → uninstalls trace = [] ∧ status_of r = 0%Z) ∧
  (r = Raise KeyboardInterrupt →
     (∀ packages, uninstaller e packages ≠ UninstallInterrupted) →
     uninstalls trace = []).

(** ** A concrete world: the scenario of the specification *)

Definition scenario_env (w : write_outcome) (u : uninstaller_outcome) : env :=
  {| script_dir := "/project";
     executable := "/usr/bin/python3";
     path_exists := λ p, bool_decide (p = "/project/venv")
                         || bool_decide (p = "/project/venv/Scripts/python.exe");
     lister := λ python,
       if decide (python = "/usr/bin/python3") then
         Listed [("flask", "2.0"); ("pip", "23.0"); ("black", "24.0")]
       else Listed [("flask", "2.0")];
     clock := "20240101_120000";
     disk := λ _, w;
     uninstaller := λ _, u;
     reader := λ _ _, ReadOk |}.

Definition scenario_files : gmap string string :=
  {[ "requirements.txt" := "flask" +:+ NL ]}.

(** The classification scenario of the specification. *)
Definition scenario_global : gmap string string :=
  <["flask" := "2.0"]> (<["pip" := "23.0"]> (<["black" := "24.0"]> ∅)).
Definition scenario_project : gmap string string := {["flask" := "2.0"]}.
Definition scenario_declared : gset string := {["flask"]}.

(** ** Notions for the further properties of the script *)

(** The dict comprehension of [get_packages]. *)
Definition packages_dict (packages : list (string * string)) : gmap string string :=
  foldl (λ (d : gmap string string) pkg, <[lower pkg.1 := pkg.2]> d) ∅ packages.

(** A mapping whose keys are lowercased, as [get_packages] builds them. *)
Definition lowercased (g : gmap string string) : Prop :=
  ∀ name, name ∈ dom g → lower name = name.

(** No version specifier or extras bracket begins anywhere in [s]. *)
Fixpoint no_specifier (s : string) : bool :=
  negb (specifier_starts s)
  && match s with
     | EmptyString => true
     | String _ s' => no_specifier s'
     end.

(** What a call of [get_packages] for an interpreter that exists comes
    to. *)
Definition listed (e : env) (python : string) : result (gmap string string) :=
  match lister e python with
  | Listed packages => Return (packages_dict packages)
  | ListerFailed _ | ListerGarbled _ => Return ∅
  | ListerRaised err => Raise (Exception err)
  | ListerInterrupted => Raise KeyboardInterrupt
  end.

(** What [load_requirements()] returns for the files of a run. *)
Definition manifest (fs : gmap string string) : gset string :=
  match fs !! "requirements.txt" with
  | Some contents => parse_requirements contents
  | None => ∅
  end.

(** The message of the exception that [load_requirements()] raises for
    the files of a run, if it raises. *)
Definition manifest_error (e : env) (fs : gmap string string) : option string :=
  match fs !! "requirements.txt" with
  | Some contents =>
      match reader e "requirements.txt" contents with
      | ReadOk => None
      | ReadFailed err => Some err
      end
  | None => None
  end.

(** The outline of a run of [main]: its result, the keys left unread,
    the files and the external actions, with everything that is only
    printed left out. *)
Record outline := Outline {
  final : result unit;
  unread : list keyboard;
  disk_after : gmap string string;
  actions : list effect;
}.

(** From the classification on. *)
Definition removal_outline (e : env) (global_packages venv_packages : gmap string string)
    (keys : list keyboard) (fs : gmap string string) (trace : list effect) : outline :=
  let safe_to_remove :=
    (identify_safe_to_remove global_packages venv_packages (manifest fs)).1 in
  let backup_file := "global_packages_backup_" +:+ clock e +:+ ".txt" in
  if decide (safe_to_remove = ∅) then Outline (Return tt) keys fs trace
  else
    match keys with
    | Typed response :: keys =>
        let trace := (trace ++ [Asked backup_prompt response])%list in
        if decide (lower response ≠ "y") then Outline (Return tt) keys fs trace
        else
          match disk e backup_file with
          | Written =>
              let fs := <[backup_file := backup_contents global_packages]> fs in
              let trace :=
                (trace ++ [BackupWritten backup_file
                             (backup_contents global_packages)])%list in
              match keys with
              | Typed final_confirm :: keys =>
                  let trace := (trace ++ [Asked final_prompt final_confirm])%list in
                  if decide (lower final_confirm ≠ "yes") then
                    Outline (Return tt) keys fs trace
                  else
                    let trace :=
                      (trace ++ [UninstallerInvoked
                                   (elements safe_to_remove)])%list in
                    match uninstaller e (elements safe_to_remove) with
                    | Uninstalled => Outline (Return tt) keys fs trace
                    | UninstallFailed _ =>
                        Outline (Raise (SystemExit 1)) keys fs trace
                    | UninstallRaised err =>
                        Outline (Raise (Exception err)) keys fs trace
                    | UninstallInterrupted =>
                        Outline (Raise KeyboardInterrupt) keys fs trace
                    end
              | CtrlC :: keys => Outline (Raise KeyboardInterrupt) keys fs trace
              | EndOfInput :: _ | [] =>
                  Outline (Raise (Exception "EOF when reading a line")) keys fs trace
              end
          | WriteFailed err =>
              Outline (Raise (Exception err)) keys fs (trace ++ [BackupFailed backup_file])
          | WriteInterrupted => Outline (Raise KeyboardInterrupt) keys fs trace
          | WriteBroken written err =>
              Outline (Raise (Exception err)) keys
                (<[backup_file := first_chars written
                                    (backup_contents global_packages)]> fs)
                (trace ++ [BackupFailed backup_file])
          | WriteCut written =>
              Outline (Raise KeyboardInterrupt) keys
                (<[backup_file := first_chars written
                                    (backup_contents global_packages)]> fs)
                trace
          end
    | CtrlC :: keys => Outline (Raise KeyboardInterrupt) keys fs trace
    | EndOfInput :: _ | [] =>
        Outline (Raise (Exception "EOF when reading a line")) keys fs trace
    end.

(** From the listing of the global environment on; the manifest is read
    right after it. *)
Definition global_outline (e : env) (venv_packages : gmap string string)
    (keys : list keyboard) (fs : gmap string string) (trace : list effect) : outline :=
  let trace := (trace ++ [ListerInvoked (executable e)])%list in
  match listed e (executable e) with
  | Return global_packages =>
      match manifest_error e fs with
      | None => removal_outline e global_packages venv_packages keys fs trace
      | Some err => Outline (Raise (Exception err)) keys fs trace
      end
  | Raise x => Outline (Raise x) keys fs trace
  end.

Definition main_outline (e : env) (keys : list keyboard) (fs : gmap string string)
  : outline :=
  let venv_path := path_join (script_dir e) "venv" in
  if path_exists e venv_path then
    if path_exists e (interpreter e (Some venv_path)) then
      let trace := ([] ++ [ListerInvoked (interpreter e (Some venv_path))])%list in
      match listed e (interpreter e (Some venv_path)) with
      | Return venv_packages => global_outline e venv_packages keys fs trace
      | Raise x => Outline (Raise x) keys fs trace
      end
    else
      Outline (Raise (Exception ("Virtual environment not found at " +:+ venv_path)))
        keys fs []
  else
    match keys with
    | Typed response :: keys =>
        let trace := ([] ++ [Asked continue_prompt response])%list in
        if decide (lower response ≠ "y") then
          Outline (Raise (SystemExit 0)) keys fs trace
        else global_outline e ∅ keys fs trace
    | CtrlC :: keys => Outline (Raise KeyboardInterrupt) keys fs []
    | EndOfInput :: _ | [] =>
        Outline (Raise (Exception "EOF when reading a line")) keys fs []
    end.

(** A result and a state that an outline describes. *)
Definition agrees (o : outline) (r : result unit) (st : state) : Prop :=
  r = final o ∧ observed st (unread o) (disk_after o) (actions o).

(** The surroundings [e] with another answer of the lister for one
    interpreter. *)
Definition with_lister (e : env) (python : string) (outcome : lister_outcome)
  : env :=
  {| script_dir := script_dir e;
     executable := executable e;
     path_exists := path_exists e;
     lister := λ p, if decide (p = python) then outcome else lister e p;
     clock := clock e;
     disk := disk e;
     uninstaller := uninstaller e;
     reader := reader e |}.

(** The interpreter of the project environment and the backup file of a
    run. *)
Definition project_python (e : env) : string :=
  interpreter e (Some (path_join (script_dir e) "venv")).

Definition backup_path (e : env) : string :=
  "global_packages_backup_" +:+ clock e +:+ ".txt".

(** The exit status that the outcome of the uninstaller leads to. *)
Definition uninstall_status (u : uninstaller_outcome) : Z :=
  match u with
  | Uninstalled | UninstallInterrupted => 0
  | UninstallFailed _ | UninstallRaised _ => 1
  end.

(** ** The chat page of [chat_utils.py] and [graph_utils.py]

    The functions of the chat page work on the session state of
    Streamlit, of which they use the entry [messages] only, and put
    widgets on the page.  The entry may be missing; reading it then
    raises [AttributeError].  The text the user submits in the chat
    input is an argument of the model, as is the function that answers
    a question. *)

Module Chat.

(** [{"role": ..., "content": ...}] *)
Record message := Message { role : string; content : string }.

(** The widgets the functions put on the page. *)
Inductive widget :=
| ChatInput (placeholder : string)
| ChatMessage (name body : string)
| Spinner (text : string)
| ErrorBox (body : string).

Record session := Session {
  messages : option (list message);
  page : list widget;
}.

(** How a call can fail: a missing entry of the session state, or an
    exception of the answering function that [except Exception] does
    not catch. *)
Inductive failure :=
| AttributeError (name : string)
| Escaped (x : exn).

Inductive outcome :=
| Done
| Failed (why : failure).

Definition show (w : widget) (s : session) : session :=
  {| messages := messages s; page := page s ++ [w] |}.

Definition greeting : message :=
  {| role := "assistant";
     content := "Hello! Ask me anything about international football "
                +:+ "from 1872 to present." |}.

Definition initialize_chat_history (s : session) : session :=
  match messages s with
  | None => {| messages := Some [greeting]; page := page s |}
  | Some _ => s
  end.

Definition display_chat_history (s : session) : outcome * session :=
  match messages s with
  | None => (Failed (AttributeError "messages"), s)
  | Some history =>
      (Done,
       foldl (λ s message, show (ChatMessage (role message) (content message)) s)
             s history)
  end.

Definition chat_placeholder : string :=
  "Enter your question about international football from 1872 to present:".

Definition handle_user_input {Chain : Type} (openai_api_key : string)
    (query_graph_func : Chain → string → result string) (chain : Chain)
    (submitted : option string) (s : session) : outcome * session :=
  let s := show (ChatInput chat_placeholder) s in
  match submitted with
  | Some prompt =>
      if decide (prompt ≠ "") then
        match messages s with
        | None => (Failed (AttributeError "messages"), s)
        | Some history =>
            let history := (history ++ [Message "user" prompt])%list in
            let s := {| messages := Some history; page := page s |} in
            let s := show (ChatMessage "user" prompt) s in
            if decide (openai_api_key ≠ "") then
              let s := show (Spinner "Thinking...") s in
              let answered :=
                match query_graph_func chain prompt with
                | Return response => inr (response, s)
                | Raise (Exception e) =>
                    inr ("Sorry, I encountered an error: " +:+ e,
                         show (ErrorBox ("Error: " +:+ e)) s)
                | Raise x => inl x
                end in
              match answered with
              | inr (response, s) =>
                  let s := show (ChatMessage "assistant" response) s in
                  (Done,
                   {| messages := Some (history ++ [Message "assistant" response])%list;
                      page := page s |})
              | inl x => (Failed (Escaped x), s)
              end
            else
              (Done,
               show (ErrorBox "Please set your OpenAI API key in the sidebar.") s)
        end
      else (Done, s)
  | None => (Done, s)
  end.

(** [guery_graph] of [graph_utils.py]: the entry [result] of what the
    chain answers; a missing entry raises [KeyError]. *)
Definition guery_graph (chain : string → result (gmap string string))
    (query : string) : result string :=
  match chain query with
  | Return answer =>
      match answer !! "result" with
      | Some result => Return result
      | None => Raise (Exception "'result'")
      end
  | Raise x => Raise x
  end.

(** The messages among the widgets of a page. *)
Definition shown (widgets : list widget) : list message :=
  omap (λ w, match w with
             | ChatMessage name body => Some (Message name body)
             | _ => None
             end) widgets.

(** The text the user submitted, if any: [None] and the empty text
    count as nothing. *)
Definition question (submitted : option string) : option string :=
  match submitted with
  | Some prompt => if decide (prompt ≠ "") then Some prompt else None
  | None => None
  end.

(** What is recorded as the assistant's reply to a question. *)
Definition reply (r : result string) : option string :=
  match r with
  | Return response => Some response
  | Raise (Exception e) => Some ("Sorry, I encountered an error: " +:+ e)
  | Raise _ => None
  end.

(** A conversation: the greeting, then questions and replies in turn. *)
Definition transcript (turns : list (string * string)) : list message :=
  greeting :: flat_map (λ turn, [Message "user" turn.1;
                                 Message "assistant" turn.2]) turns.

End Chat.

(** * Properties *)

Example requests_line :
  requirement_of_line "requests>=2.0,<3.0  # http" = Some "requests".
Proof. reflexivity. Qed.

(** ** Properties of the text primitives and of the manifest parser *)

Section text_facts.

Implicit Types (s t sep : string) (c a : ascii).

Lemma lower_ascii_idemp c : lower_ascii (lower_ascii c) = lower_ascii c.
Proof. by destruct c as [[] [] [] [] [] [] [] []]. Qed.

Lemma lower_idemp s : lower (lower s) = lower s.
Proof. induction s as [|c s IH]; simpl; [done|]. by rewrite lower_ascii_idemp, IH. Qed.

Lemma split_head_nil sep : split_head sep "" = "".
Proof. by destruct sep. Qed.

Lemma split_head_cons sep c s :
  split_head sep (String c s)
  = if startswith sep (String c s) then "" else String c (split_head sep s).
Proof. done. Qed.

(** A separator that starts with another character lets [c] through. *)
Lemma split_head_pass a sep c s :
  a ≠ c → split_head (String a sep) (String c s) = String c (split_head (String a sep) s).
Proof.
  intros Hne. rewrite split_head_cons. unfold startswith. simpl.
  by destruct (ascii_dec a c).
Qed.

Lemma split_head_cut c s : split_head (String c "") (String c s) = "".
Proof.
  rewrite split_head_cons. unfold startswith. simpl.
  destruct (ascii_dec c c); [|congruence]. by destruct s.
Qed.

Lemma split_head_either sep c s :
  split_head sep (String c s) = "" ∨
  split_head sep (String c s) = String c (split_head sep s).
Proof. rewrite split_head_cons. destruct (startswith sep (String c s)); auto. Qed.

Lemma startswith_char a c s : startswith (String a "") (String c s) = bool_decide (a = c).
Proof.
  unfold startswith. simpl.
  destruct (ascii_dec a c); case_bool_decide; try congruence. by destruct s.
Qed.

Lemma startswith_other a sep c s : a ≠ c → startswith (String a sep) (String c s) = false.
Proof. intros. unfold startswith. simpl. by destruct (ascii_dec a c). Qed.

(** The chain of splits of the parser cuts the line at the first
    specifier, as the specification words it. *)
Lemma strip_version_specifier_spec s :
  strip_version_specifier s = bare_name_spec s.
Proof.
  unfold strip_version_specifier.
  induction s as [|c s IH]; [reflexivity|].
  cbn [bare_name_spec]. unfold specifier_starts.
  rewrite !startswith_char.
  destruct (decide (">"%char = c)) as [<-|Hgt].
  { rewrite (startswith_other "="), (startswith_other "<") by congruence.
    rewrite bool_decide_eq_true_2, !orb_true_r by reflexivity.
    cbn [orb].
    rewrite (split_head_pass "=") by congruence.
    destruct (split_head_either ">=" ">" (split_head "==" s)) as [->| ->];
      rewrite ?split_head_nil; [reflexivity|].
    rewrite (split_head_pass "<"), split_head_cut by congruence.
    by rewrite !split_head_nil. }
  destruct (decide ("<"%char = c)) as [<-|Hlt].
  { rewrite (startswith_other "="), (startswith_other ">") by congruence.
    rewrite (bool_decide_eq_true_2 ("<"%char = "<"%char)), !orb_true_r
      by reflexivity.
    cbn [orb].
    rewrite (split_head_pass "="), (split_head_pass ">") by congruence.
    destruct (split_head_either "<=" "<" (split_head ">=" (split_head "==" s)))
      as [->| ->]; rewrite ?split_head_nil; [reflexivity|].
    rewrite (split_head_pass ">"), split_head_cut by congruence.
    by rewrite !split_head_nil. }
  destruct (decide ("["%char = c)) as [<-|Hbr].
  { rewrite !(startswith_other _ _ "[") by congruence.
    rewrite (bool_decide_eq_true_2 ("["%char = "["%char)), !orb_true_r
      by reflexivity.
    cbn [orb].
    rewrite !(split_head_pass _ _ "[") by congruence.
    apply split_head_cut. }
  rewrite (startswith_other ">"), (startswith_other "<") by congruence.
  rewrite !bool_decide_eq_false_2, !orb_false_r by congruence.
  rewrite (split_head_cons "==").
  destruct (startswith "==" (String c s)); [by rewrite !split_head_nil|].
  rewrite !split_head_pass by congruence. by rewrite IH.
Qed.

End text_facts.

Section more_text_facts.

Implicit Types (s t a : string) (c : ascii).

Lemma string_app_cons c s t : String c s +:+ t = String c (s +:+ t).
Proof. reflexivity. Qed.

Lemma string_app_nil_r s : s +:+ "" = s.
Proof.
  induction s as [|c s IH]; [reflexivity|].
  by rewrite string_app_cons, IH.
Qed.

Lemma string_app_assoc a s t : (a +:+ s) +:+ t = a +:+ (s +:+ t).
Proof.
  induction a as [|c a IH]; [reflexivity|].
  by rewrite !string_app_cons, IH.
Qed.

Lemma all_chars_app P a s : all_chars P (a +:+ s) = all_chars P a && all_chars P s.
Proof.
  induction a as [|c a IH]; [reflexivity|].
  rewrite string_app_cons. cbn [all_chars]. rewrite IH. by rewrite andb_assoc.
Qed.

Lemma all_chars_impl (P Q : ascii → bool) s :
  (∀ c, P c = true → Q c = true) → all_chars P s = true → all_chars Q s = true.
Proof.
  intros HPQ. induction s as [|c s IH]; simpl; [reflexivity|].
  rewrite !andb_true_iff. intros [Hc Hs]. auto.
Qed.

Lemma name_char_spec c :
  name_char c = true →
  is_space c = false ∧ "="%char ≠ c ∧ "<"%char ≠ c ∧ ">"%char ≠ c ∧
  "["%char ≠ c ∧ "#"%char ≠ c.
Proof.
  unfold name_char. rewrite !andb_true_iff, !negb_true_iff, !Ascii.eqb_neq.
  intros (((((? & ?) & ?) & ?) & ?) & ?). repeat split; congruence.
Qed.

Lemma rstrip_cons c s :
  is_space c = false → rstrip (String c s) = String c (rstrip s).
Proof. intros Hc. simpl. rewrite Hc. by destruct (rstrip s). Qed.

Lemma rstrip_app a t : rstrip t ≠ "" → rstrip (a +:+ t) = a +:+ rstrip t.
Proof.
  intros Ht. induction a as [|c a IH]; [reflexivity|].
  rewrite !string_app_cons. cbn [rstrip].
  rewrite IH. destruct (a +:+ rstrip t) eqn:E; [|reflexivity].
  destruct a; [|discriminate]. contradiction.
Qed.

Lemma rstrip_no_space s :
  all_chars (λ c, negb (is_space c)) s = true → rstrip s = s.
Proof.
  induction s as [|c s IH]; [reflexivity|].
  cbn [all_chars]. rewrite andb_true_iff, negb_true_iff. intros [Hc Hs].
  rewrite rstrip_cons by done. by rewrite IH.
Qed.

Lemma lstrip_no_space s :
  all_chars (λ c, negb (is_space c)) s = true → lstrip s = s.
Proof.
  destruct s as [|c s]; [reflexivity|].
  cbn [all_chars lstrip]. rewrite andb_true_iff, negb_true_iff.
  intros [-> _]. reflexivity.
Qed.

Lemma plain_name_no_space s :
  plain_name s = true → all_chars (λ c, negb (is_space c)) s = true.
Proof.
  apply all_chars_impl. intros c Hc.
  apply name_char_spec in Hc as (-> & _). reflexivity.
Qed.

Lemma strip_plain_name s : plain_name s = true → strip s = s.
Proof.
  intros Hs. apply plain_name_no_space in Hs. unfold strip.
  by rewrite lstrip_no_space, rstrip_no_space.
Qed.

(** Reading stops at the first [==] that follows a plain name. *)
Lemma bare_name_spec_plain s t :
  plain_name s = true → bare_name_spec (s +:+ "==" +:+ t) = s.
Proof.
  induction s as [|c s IH]; [by destruct t|].
  unfold plain_name. cbn [all_chars]. rewrite andb_true_iff. intros [Hc Hs].
  apply name_char_spec in Hc as (_ & Heq & Hlt & Hgt & Hbr & _).
  rewrite string_app_cons. cbn [bare_name_spec]. unfold specifier_starts.
  rewrite !startswith_char, !startswith_other by done.
  rewrite !bool_decide_eq_false_2 by done. cbn [orb].
  by rewrite IH.
Qed.

(** A line of the backup file parses to its lowercased name. *)
Lemma requirement_of_backup_line name version :
  plain_name name = true →
  requirement_of_line (backup_line (name, version)) = Some (lower name).
Proof.
  intros Hname. unfold requirement_of_line, backup_line. cbn [fst snd].
  assert (Hstrip : strip (name +:+ "==" +:+ version +:+ NL)
                   = name +:+ "==" +:+ rstrip (version +:+ NL)).
  { unfold strip.
    assert (lstrip (name +:+ "==" +:+ version +:+ NL)
            = name +:+ "==" +:+ version +:+ NL) as ->.
    { destruct name as [|c name]; [reflexivity|].
      unfold plain_name in Hname. cbn [all_chars] in Hname.
      apply andb_true_iff in Hname as [Hc _].
      apply name_char_spec in Hc as (Hc & _).
      rewrite string_app_cons. cbn [lstrip]. by rewrite Hc. }
    assert (Heq : rstrip ("==" +:+ version +:+ NL)
                  = "==" +:+ rstrip (version +:+ NL)).
    { change ("==" +:+ version +:+ NL)
        with (String "=" (String "=" (version +:+ NL))).
      by rewrite !rstrip_cons. }
    rewrite rstrip_app; rewrite Heq; [reflexivity|discriminate]. }
  rewrite Hstrip.
  assert (String.eqb (name +:+ "==" +:+ rstrip (version +:+ NL)) "" = false) as ->.
  { by destruct name. }
  assert (startswith "#" (name +:+ "==" +:+ rstrip (version +:+ NL)) = false) as ->.
  { destruct name as [|c name]; [reflexivity|].
    unfold plain_name in Hname. cbn [all_chars] in Hname.
    apply andb_true_iff in Hname as [Hc _].
    apply name_char_spec in Hc as (_ & _ & _ & _ & _ & Hc).
    rewrite string_app_cons. by apply startswith_other. }
  cbn [negb andb].
  rewrite strip_version_specifier_spec, bare_name_spec_plain by done.
  by rewrite strip_plain_name.
Qed.

Lemma universal_newlines_no_cr s :
  all_chars (λ c, negb (Ascii.eqb c CR)) s = true → universal_newlines s = s.
Proof.
  induction s as [|c s IH]; [reflexivity|].
  cbn [all_chars]. rewrite andb_true_iff, negb_true_iff. intros [Hc Hs].
  cbn [universal_newlines]. rewrite Hc. by rewrite IH.
Qed.

Lemma file_lines_first s t :
  all_chars (λ c, negb (Ascii.eqb c LF)) s = true →
  file_lines (s +:+ NL +:+ t) = (s +:+ NL) :: file_lines t.
Proof.
  induction s as [|c s IH]; [reflexivity|].
  cbn [all_chars]. rewrite andb_true_iff, negb_true_iff. intros [Hc Hs].
  rewrite string_app_cons. cbn [file_lines]. rewrite Hc, IH by done. reflexivity.
Qed.

Lemma concat_cons s (l : list string) :
  String.concat "" (s :: l) = s +:+ String.concat "" l.
Proof. destruct l; simpl; [by rewrite string_app_nil_r|reflexivity]. Qed.

(** The names collected by the parsing loop. *)
Lemma elem_of_parse_loop (l : list string) (init : gset string) x :
  x ∈ foldl (λ packages line,
               match requirement_of_line line with
               | Some name => {[ name ]} ∪ packages
               | None => packages
               end) init l
  ↔ x ∈ init ∨ ∃ line, line ∈ l ∧ requirement_of_line line = Some x.
Proof.
  revert init. induction l as [|y l IH]; intros init; simpl.
  - split; [auto|]. intros [?|(line & Hin & _)]; [done|].
    by apply elem_of_nil in Hin.
  - rewrite IH. clear IH. split.
    + intros [Hx|(line & Hin & Hline)].
      * destruct (requirement_of_line y) as [name|] eqn:Hy; [|auto].
        apply elem_of_union in Hx as [Hx|Hx]; [|auto].
        apply elem_of_singleton in Hx as ->. right. exists y.
        split; [apply list_elem_of_here|done].
      * right. exists line. split; [by apply list_elem_of_further|done].
    + intros [Hx|(line & Hin & Hline)].
      * left. destruct (requirement_of_line y); [|done].
        apply elem_of_union. auto.
      * apply elem_of_cons in Hin as [->|Hin].
        -- left. rewrite Hline. apply elem_of_union. left.
           by apply elem_of_singleton.
        -- right. eauto.
Qed.

Lemma elem_of_parse_requirements contents x :
  x ∈ parse_requirements contents
  ↔ ∃ line, line ∈ file_lines (universal_newlines contents)
            ∧ requirement_of_line line = Some x.
Proof.
  unfold parse_requirements. rewrite elem_of_parse_loop.
  split; [|auto]. intros [H|H]; [|done]. by apply not_elem_of_empty in H.
Qed.

Lemma lstrip_spaces s : all_chars is_space s = true → lstrip s = "".
Proof.
  induction s as [|c s IH]; [reflexivity|].
  cbn [all_chars lstrip]. rewrite andb_true_iff. intros [-> Hs]. by apply IH.
Qed.

Lemma requirement_of_blank line :
  all_chars is_space line = true → requirement_of_line line = None.
Proof.
  intros Hline. unfold requirement_of_line, strip.
  by rewrite lstrip_spaces.
Qed.

Lemma requirement_of_comment rest : requirement_of_line ("#" +:+ rest) = None.
Proof.
  unfold requirement_of_line, strip.
  change ("#" +:+ rest) with (String "#" rest). cbn [lstrip].
  change (is_space "#") with false. cbv iota.
  rewrite rstrip_cons by reflexivity.
  rewrite startswith_char, bool_decide_eq_true_2 by reflexivity.
  by rewrite andb_false_r.
Qed.

End more_text_facts.

(** ** Properties of the classification *)

Section classification.

Implicit Types (g v : gmap string string) (r deps : gset string).
Implicit Types (x pkg : string) (l : list string).

(** A loop that adds to a set the elements passing a test. *)
Lemma elem_of_foldl_add (P : string → Prop) `{!∀ y, Decision (P y)}
    l (init : gset string) x :
  x ∈ foldl (λ acc y, if decide (P y) then {[ y ]} ∪ acc else acc) init l
  ↔ x ∈ init ∨ (x ∈ l ∧ P x).
Proof.
  revert init. induction l as [|y l IH]; intros init; simpl.
  - rewrite elem_of_nil. tauto.
  - rewrite IH, elem_of_cons. clear IH.
    case_decide; set_unfold; naive_solver.
Qed.

Lemma elem_of_keys g x : x ∈ (map_to_list g).*1 ↔ x ∈ dom g.
Proof.
  rewrite list_elem_of_fmap, elem_of_dom. split.
  - intros [[k w] [-> Hin]]. apply elem_of_map_to_list in Hin. by exists w.
  - intros [w Hw]. exists (x, w). split; [done|]. by apply elem_of_map_to_list.
Qed.

Lemma elem_of_project_dependencies g v r x :
  x ∈ identify_project_dependencies g v r
  ↔ (x ∈ r ∧ x ∈ dom g) ∨ (x ∈ dom g ∧ x ∈ dom v ∧ x ∉ ESSENTIAL_TOOLS).
Proof.
  unfold identify_project_dependencies.
  rewrite (elem_of_foldl_add (λ y, y ∉ ESSENTIAL_TOOLS)).
  rewrite (elem_of_foldl_add (λ y, y ∈ dom g)).
  rewrite !elem_of_elements. set_solver.
Qed.

(** What the loop of [identify_safe_to_remove] has accumulated after
    running over the names [l]. *)
Lemma classify_loop_keep v r deps l (acc : gset string * gset string) x :
  x ∈ (foldl (classify_package v r deps) acc l).2
  ↔ x ∈ acc.2 ∨ (x ∈ l ∧ protected x).
Proof.
  revert acc. induction l as [|y l IH]; intros [safe keep]; simpl.
  - rewrite elem_of_nil. tauto.
  - rewrite IH, elem_of_cons. clear IH.
    unfold classify_package, protected.
    generalize CORE_PACKAGES ESSENTIAL_TOOLS. intros core essential.
    repeat case_decide; simpl; set_solver.
Qed.

Lemma classify_loop_safe v r deps l (acc : gset string * gset string) x :
  x ∈ (foldl (classify_package v r deps) acc l).1
  ↔ x ∈ acc.1 ∨
    (x ∈ l ∧ ¬ protected x ∧ lower x ∈ dom v ∧ (x ∈ deps ∨ lower x ∈ r)).
Proof.
  revert acc. induction l as [|y l IH]; intros [safe keep]; simpl.
  - rewrite elem_of_nil. tauto.
  - rewrite IH, elem_of_cons. clear IH.
    unfold classify_package, protected.
    generalize CORE_PACKAGES ESSENTIAL_TOOLS. intros core essential.
    repeat case_decide; simpl; set_solver.
Qed.

Lemma elem_of_keep g v r x :
  x ∈ (identify_safe_to_remove g v r).2 ↔ x ∈ dom g ∧ protected x.
Proof.
  unfold identify_safe_to_remove.
  rewrite classify_loop_keep, elem_of_keys. set_solver.
Qed.

Lemma elem_of_safe_to_remove g v r x :
  x ∈ (identify_safe_to_remove g v r).1
  ↔ x ∈ dom g ∧ ¬ protected x ∧ lower x ∈ dom v ∧
    (x ∈ identify_project_dependencies g v r ∨ lower x ∈ r).
Proof.
  unfold identify_safe_to_remove.
  rewrite classify_loop_safe, elem_of_keys. set_solver.
Qed.

Lemma nothing_to_remove_without_global v r :
  (identify_safe_to_remove ∅ v r).1 = ∅.
Proof.
  apply set_eq. intros x. rewrite elem_of_safe_to_remove, dom_empty_L.
  split.
  - intros [H _]. by apply not_elem_of_empty in H.
  - intros H. by apply not_elem_of_empty in H.
Qed.

End classification.

(** ** Claims about the classification *)

(** C2. For every global package set, project package set and set of
    declared dependencies, the two sets returned by
    [identify_safe_to_remove] are disjoint, and every package proposed
    for removal is a key of the global package mapping. *)
Theorem safe_to_remove_disjoint_from_keep_and_global
    (g v : gmap string string) (r : gset string) :
  (identify_safe_to_remove g v r).1 ∩ (identify_safe_to_remove g v r).2 = ∅ ∧
  (identify_safe_to_remove g v r).1 ⊆ dom g.
Proof.
  split.
  - apply set_eq. intros x.
    rewrite elem_of_intersection, elem_of_safe_to_remove, elem_of_keep.
    set_solver.
  - intros x. rewrite elem_of_safe_to_remove. tauto.
Qed.

(** C3. A global package whose lowercased name is in [CORE_PACKAGES] or
    [ESSENTIAL_TOOLS] lands in [keep] and never in [safe_to_remove],
    whatever the project packages and the declared dependencies are; the
    loop body decides this before it looks at the removability rules:
    for such a package it only adds the name to [keep]. *)
Theorem protected_package_is_kept
    (g v : gmap string string) (r : gset string) (pkg : string) :
  pkg ∈ dom g →
  lower pkg ∈ CORE_PACKAGES ∪ ESSENTIAL_TOOLS →
  pkg ∈ (identify_safe_to_remove g v r).2 ∧
  (pkg ∉ (identify_safe_to_remove g v r).1) ∧
  (∀ deps safe keep,
     classify_package v r deps (safe, keep) pkg = (safe, {[ pkg ]} ∪ keep)).
Proof.
  intros Hg Hp. apply elem_of_union in Hp.
  split; [|split].
  - apply elem_of_keep. by split.
  - rewrite elem_of_safe_to_remove. unfold protected. tauto.
  - intros deps safe keep. unfold classify_package.
    destruct (decide (lower pkg ∈ CORE_PACKAGES)); [reflexivity|].
    destruct (decide (lower pkg ∈ ESSENTIAL_TOOLS)); [reflexivity|].
    tauto.
Qed.

Lemma protected_package_is_kept_witness :
  "pip" ∈ (identify_safe_to_remove scenario_global scenario_project
             scenario_declared).2.
Proof.
  refine (proj1 (protected_package_is_kept scenario_global scenario_project
                   scenario_declared "pip" _ _)).
  - vm_compute. reflexivity.
  - vm_compute. reflexivity.
Defined.

(** C4. Every package that [identify_safe_to_remove] proposes for
    removal is present in the project package set, packages being
    identified by their lowercased name as in the data model (for a name
    that is already lowercased this is plain membership among the keys);
    so with an empty project package set nothing is proposed. *)
Theorem safe_to_remove_is_in_project
    (g v : gmap string string) (r : gset string) :
  (∀ pkg, pkg ∈ (identify_safe_to_remove g v r).1 →
          lower pkg ∈ dom v ∧ (lower pkg = pkg → pkg ∈ dom v)) ∧
  (v = ∅ → (identify_safe_to_remove g v r).1 = ∅).
Proof.
  split.
  - intros pkg Hin. apply elem_of_safe_to_remove in Hin as (_ & _ & Hv & _).
    split; [done|]. intros <-. done.
  - intros ->. apply set_eq. intros x.
    rewrite elem_of_safe_to_remove, dom_empty_L. set_solver.
Qed.

Lemma safe_to_remove_is_in_project_witness :
  "flask" ∈ dom scenario_project ∧
  (identify_safe_to_remove scenario_global ∅ scenario_declared).1 = ∅.
Proof.
  split.
  - refine (proj2 (proj1 (safe_to_remove_is_in_project scenario_global
                            scenario_project scenario_declared) "flask" _) _).
    + vm_compute. reflexivity.
    + reflexivity.
  - apply (proj2 (safe_to_remove_is_in_project scenario_global ∅
                    scenario_declared)).
    reflexivity.
Defined.

(** C5. On global = {flask: 2.0, pip: 23.0, black: 24.0},
    project = {flask: 2.0} and declared = {flask}, the classification
    returns safe_to_remove = {flask} and keep = {pip, black}. *)
Theorem scenario_classification :
  identify_safe_to_remove
    (<["flask" := "2.0"]> (<["pip" := "23.0"]> (<["black" := "24.0"]> ∅)))
    {["flask" := "2.0"]} {["flask"]}
  = ({["flask"]}, {["pip"; "black"]})
  ∧ identify_safe_to_remove scenario_global scenario_project scenario_declared
    = ({["flask"]}, {["pip"; "black"]}).
Proof. split; vm_compute; reflexivity. Qed.

(** C10. The [keep] set holds exactly the global package names whose
    lowercased form is in [CORE_PACKAGES] or [ESSENTIAL_TOOLS]; a global
    package that is neither protected nor present in the project
    environment is in neither returned set, so the union of the two
    sets can be a strict subset of the global package names. *)
Theorem keep_is_exactly_the_protected :
  (∀ (g v : gmap string string) (r : gset string) pkg,
     pkg ∈ (identify_safe_to_remove g v r).2
     ↔ pkg ∈ dom g ∧ lower pkg ∈ CORE_PACKAGES ∪ ESSENTIAL_TOOLS) ∧
  (∀ (g v : gmap string string) (r : gset string) pkg,
     lower pkg ∉ CORE_PACKAGES ∪ ESSENTIAL_TOOLS →
     lower pkg ∉ dom v →
     (pkg ∉ (identify_safe_to_remove g v r).2) ∧
     (pkg ∉ (identify_safe_to_remove g v r).1)) ∧
  (∃ (g v : gmap string string) (r : gset string),
     (identify_safe_to_remove g v r).2 ∪ (identify_safe_to_remove g v r).1
     ⊂ dom g).
Proof.
  split; [|split].
  - intros g v r pkg. rewrite elem_of_keep, elem_of_union. reflexivity.
  - intros g v r pkg Hp Hv. rewrite elem_of_union in Hp.
    rewrite elem_of_keep, elem_of_safe_to_remove. unfold protected. tauto.
  - exists {["numpy" := "1.26"]}, ∅, ∅. vm_compute. split.
    + intros x Hx. discriminate Hx.
    + intros H. specialize (H "numpy" eq_refl). discriminate H.
Qed.

Lemma keep_is_exactly_the_protected_witness :
  ("numpy" ∉ (identify_safe_to_remove {["numpy" := "1.26"]} ∅ ∅).2) ∧
  ("numpy" ∉ (identify_safe_to_remove {["numpy" := "1.26"]} ∅ ∅).1).
Proof.
  apply (proj1 (proj2 keep_is_exactly_the_protected)).
  - vm_compute. discriminate.
  - vm_compute. discriminate.
Defined.

(** ** Properties of the backup file *)

Section backup_facts.

Implicit Types (g : gmap string string) (items : list (string * string)).

Global Instance item_le_total : Total item_le.
Proof.
  intros a b. unfold item_le.
  destruct (decide (a.1 = b.1)) as [Hab|Hab], (decide (b.1 = a.1)) as [Hba|Hba];
    try congruence; apply String.le_total.
Qed.

Lemma item_le_name a b : item_le a b → String.le a.1 b.1.
Proof.
  unfold item_le. destruct (decide (a.1 = b.1)) as [->|]; [|done].
  intros _. reflexivity.
Qed.

Lemma backup_line_app item rest :
  backup_line item +:+ rest = (item.1 +:+ "==" +:+ item.2) +:+ NL +:+ rest.
Proof. unfold backup_line. by rewrite !string_app_assoc. Qed.

Lemma readable_no_lf item :
  readable item →
  all_chars (λ c, negb (Ascii.eqb c LF)) (item.1 +:+ "==" +:+ item.2) = true.
Proof.
  intros [Hn Hv]. rewrite !all_chars_app, !andb_true_iff.
  split; [|split].
  - revert Hn. apply all_chars_impl. intros c Hc.
    apply name_char_spec in Hc as (Hc & _).
    destruct (Ascii.eqb_spec c LF) as [->|]; [discriminate Hc|reflexivity].
  - reflexivity.
  - revert Hv. apply all_chars_impl. intros c. unfold line_char.
    rewrite andb_true_iff. tauto.
Qed.

Lemma readable_no_cr item :
  readable item →
  all_chars (λ c, negb (Ascii.eqb c CR)) (backup_line item) = true.
Proof.
  intros [Hn Hv]. unfold backup_line.
  rewrite !all_chars_app, !andb_true_iff.
  split; [|split; [reflexivity|split; [|reflexivity]]].
  - revert Hn. apply all_chars_impl. intros c Hc.
    apply name_char_spec in Hc as (Hc & _).
    destruct (Ascii.eqb_spec c CR) as [->|]; [discriminate Hc|reflexivity].
  - revert Hv. apply all_chars_impl. intros c. unfold line_char.
    rewrite andb_true_iff. tauto.
Qed.

Lemma file_lines_backup items :
  Forall readable items →
  file_lines (String.concat "" (backup_line <$> items)) = backup_line <$> items.
Proof.
  induction 1 as [|item items Hitem _ IH]; [reflexivity|].
  rewrite fmap_cons, concat_cons, backup_line_app.
  rewrite file_lines_first by by apply readable_no_lf.
  rewrite IH. f_equal. unfold backup_line. by rewrite !string_app_assoc.
Qed.

Lemma backup_no_cr items :
  Forall readable items →
  all_chars (λ c, negb (Ascii.eqb c CR))
    (String.concat "" (backup_line <$> items)) = true.
Proof.
  induction 1 as [|item items Hitem _ IH]; [reflexivity|].
  rewrite fmap_cons, concat_cons, all_chars_app, IH, andb_true_r.
  by apply readable_no_cr.
Qed.

Lemma sorted_items_readable g :
  (∀ name version, g !! name = Some version → readable (name, version)) →
  Forall readable (merge_sort item_le (map_to_list g)).
Proof.
  intros Hg. apply Forall_forall. intros [name version] Hin.
  rewrite merge_sort_Permutation in Hin.
  apply elem_of_map_to_list in Hin. by apply Hg.
Qed.

Lemma parse_backup g :
  (∀ name version, g !! name = Some version → readable (name, version)) →
  parse_requirements (backup_contents g) = set_map lower (dom g).
Proof.
  intros Hg. pose proof (sorted_items_readable g Hg) as Hitems.
  apply set_eq. intros x.
  rewrite elem_of_parse_requirements. unfold backup_contents.
  rewrite universal_newlines_no_cr by by apply backup_no_cr.
  rewrite file_lines_backup by done.
  rewrite elem_of_map. split.
  - intros (line & Hline & Hx).
    apply list_elem_of_fmap in Hline as ([name version] & -> & Hin).
    rewrite Forall_forall in Hitems. destruct (Hitems _ Hin) as [Hn _].
    rewrite requirement_of_backup_line in Hx by done.
    exists name. split; [congruence|].
    rewrite merge_sort_Permutation in Hin.
    apply elem_of_map_to_list in Hin. apply elem_of_dom. eauto.
  - intros (name & -> & Hdom). apply elem_of_dom in Hdom as [version Hv].
    exists (backup_line (name, version)). split.
    + apply list_elem_of_fmap. exists (name, version). split; [done|].
      rewrite merge_sort_Permutation. by apply elem_of_map_to_list.
    + apply requirement_of_backup_line. by destruct (Hg _ _ Hv).
Qed.

End backup_facts.

(** ** Properties of the script functions *)

Lemma load_requirements_pure path e st :
  (load_requirements path e st).2 = st.
Proof.
  unfold load_requirements. destruct (files st !! path) as [contents|]; [|done].
  by destruct (reader e path contents).
Qed.

(** ** Claims about the manifest parser and the backup file *)

(** C7. Parsing the manifest is repeatable: two calls of
    [load_requirements] in a row end alike, with the same set, and leave
    the state as it was.  The line [requests>=2.0,<3.0  # http] parses
    to exactly [requests]; an empty line, every line that holds white
    space only and every line that begins with [#] contribute no entry;
    every entry that is kept is the
    lowercased, stripped text of the line before its first [==], [>=],
    [<=], [>], [<] or [[]; and the set returned holds exactly the
    entries of the lines of the file. *)
Theorem manifest_parsing :
  (∀ path e st,
     (load_requirements path e (load_requirements path e st).2).1
     = (load_requirements path e st).1 ∧
     (load_requirements path e (load_requirements path e st).2).2 = st) ∧
  requirement_of_line "requests>=2.0,<3.0  # http" = Some "requests" ∧
  parse_requirements "requests>=2.0,<3.0  # http" = {["requests"]} ∧
  requirement_of_line "" = None ∧
  requirement_of_line NL = None ∧
  (∀ line, all_chars is_space line = true → requirement_of_line line = None) ∧
  (∀ rest, requirement_of_line ("#" +:+ rest) = None) ∧
  (∀ line name,
     requirement_of_line line = Some name →
     name = lower (strip (bare_name_spec (strip line))) ∧ lower name = name) ∧
  (∀ contents name,
     name ∈ parse_requirements contents
     ↔ ∃ line, line ∈ file_lines (universal_newlines contents)
               ∧ requirement_of_line line = Some name).
Proof.
  split; [|split; [|split; [|split; [|split; [|split; [|split; [|split]]]]]]].
  - intros path e st. by rewrite !load_requirements_pure.
  - reflexivity.
  - vm_compute. reflexivity.
  - reflexivity.
  - reflexivity.
  - apply requirement_of_blank.
  - apply requirement_of_comment.
  - intros line name H. unfold requirement_of_line in H.
    destruct (negb (strip line =? "") && negb (startswith "#" (strip line)));
      [|discriminate].
    injection H as <-. rewrite strip_version_specifier_spec.
    split; [reflexivity|apply lower_idemp].
  - apply elem_of_parse_requirements.
Qed.

Lemma manifest_parsing_witness :
  "flask" = lower (strip (bare_name_spec (strip "Flask[async]>=2.0")))
  ∧ lower "flask" = "flask".
Proof.
  destruct manifest_parsing as (_ & _ & _ & _ & _ & _ & _ & Hentry & _).
  apply (Hentry "Flask[async]>=2.0" "flask"). reflexivity.
Defined.

(** C6, as the specification states it, fails: the parser returns names
    only, so no function recovers the (name, version) pairs of a mapping
    from the re-parsed backup file; two mappings that differ in a version
    read back as the same set. *)
Lemma backup_reparse_loses_versions :
  parse_requirements (backup_contents {["flask" := "2.0"]}) = {["flask"]} ∧
  ¬ ∃ recover : gset string → list (string * string),
      ∀ g : gmap string string,
        recover (parse_requirements (backup_contents g))
        = merge_sort item_le (map_to_list g).
Proof.
  split; [vm_compute; reflexivity|].
  intros [recover Hrecover].
  pose proof (Hrecover {["flask" := "2.0"]}) as H2.
  pose proof (Hrecover {["flask" := "3.0"]}) as H3.
  assert (parse_requirements (backup_contents {["flask" := "2.0"]})
          = parse_requirements (backup_contents {["flask" := "3.0"]})) as Heq
    by (vm_compute; reflexivity).
  rewrite Heq, H3 in H2. vm_compute in H2. discriminate H2.
Qed.

(** C6, amended.  For a global package mapping whose names contain no
    white space, [=], [<], [>], [[] or [#] and whose versions contain no
    line break, the backup file consists of one [name==version] line per
    package, sorted by name, and re-parsing it with the manifest parser
    yields exactly the set of the lowercased package names. *)
Theorem backup_reparse_gives_names (g : gmap string string) :
  (∀ name version,
     g !! name = Some version →
     plain_name name = true ∧ one_line version = true) →
  file_lines (backup_contents g)
  = backup_line <$> merge_sort item_le (map_to_list g) ∧
  merge_sort item_le (map_to_list g) ≡ₚ map_to_list g ∧
  Sorted String.le (merge_sort item_le (map_to_list g)).*1 ∧
  parse_requirements (backup_contents g) = set_map lower (dom g).
Proof.
  intros Hg. split; [|split; [|split]].
  - apply file_lines_backup. by apply sorted_items_readable.
  - apply merge_sort_Permutation.
  - apply (Sorted_fmap _ item_le); [apply item_le_name|].
    apply Sorted_merge_sort. apply _.
  - by apply parse_backup.
Qed.

Lemma backup_reparse_gives_names_witness :
  parse_requirements (backup_contents scenario_global)
  = set_map lower (dom scenario_global).
Proof.
  apply (backup_reparse_gives_names scenario_global).
  intros name version Hlookup.
  apply elem_of_map_to_list in Hlookup.
  assert (map_to_list scenario_global
          = [("flask", "2.0"); ("black", "24.0"); ("pip", "23.0")]) as Hitems
    by (vm_compute; reflexivity).
  rewrite Hitems in Hlookup.
  repeat (apply elem_of_cons in Hlookup as [Heq|Hlookup];
          [injection Heq as -> ->; split; reflexivity|]).
  apply elem_of_nil in Hlookup. destruct Hlookup.
Defined.

(** ** Rules for running the script step by step *)

Section wp_rules.

Context (e : env).
Implicit Types (st : state) (keys : list keyboard) (fs : gmap string string).
Implicit Types (trace : list effect).

Lemma wp_bind {A B} (m : M A) (k : A → M B) st Q :
  wp m e st (λ r st', match r with
                      | Return a => wp (k a) e st' Q
                      | Raise x => Q (Raise x) st'
                      end) →
  wp (m ≫= k) e st Q.
Proof.
  unfold wp, mbind, M_bind, bind. by destruct (m e st) as [[a|x] st'].
Qed.

Lemma wp_ret {A} (a : A) st Q : Q (Return a) st → wp (ret a) e st Q.
Proof. done. Qed.

Lemma wp_raise {A} (x : exn) st (Q : result A → state → Prop) :
  Q (Raise x) st → wp (raise x) e st Q.
Proof. done. Qed.

Lemma wp_sys_exit {A} code st (Q : result A → state → Prop) :
  Q (Raise (SystemExit code)) st → wp (sys_exit code) e st Q.
Proof. done. Qed.

Lemma wp_ask_env st Q : Q (Return e) st → wp ask_env e st Q.
Proof. done. Qed.

Lemma wp_try_except {A} (m : M A) handler st Q :
  wp m e st (λ r st', match r with
                      | Return a => Q (Return a) st'
                      | Raise x => wp (handler x) e st' Q
                      end) →
  wp (try_except m handler) e st Q.
Proof.
  unfold wp, try_except. by destruct (m e st) as [[a|x] st'].
Qed.

Lemma wp_print s st keys fs trace Q :
  observed st keys fs trace →
  (∀ st', observed st' keys fs trace → Q (Return tt) st') →
  wp (print s) e st Q.
Proof. intros Hst HQ. apply HQ. exact Hst. Qed.

Lemma wp_log_effect x st keys fs trace Q :
  observed st keys fs trace →
  (∀ st', observed st' keys fs (trace ++ [x]) → Q (Return tt) st') →
  wp (log_effect x) e st Q.
Proof.
  intros (Hk & Hf & Ht) HQ. apply HQ. unfold observed. cbn.
  by rewrite Hk, Hf, Ht.
Qed.

Lemma wp_input prompt st keys fs trace Q :
  observed st keys fs trace →
  match keys with
  | Typed line :: rest =>
      ∀ st', observed st' rest fs (trace ++ [Asked prompt line]) →
             Q (Return line) st'
  | CtrlC :: rest =>
      ∀ st', observed st' rest fs trace → Q (Raise KeyboardInterrupt) st'
  | _ =>
      ∀ st', observed st' keys fs trace →
             Q (Raise (Exception "EOF when reading a line")) st'
  end →
  wp (input prompt) e st Q.
Proof.
  intros (Hk & Hf & Ht) HQ. unfold wp, input. rewrite Hk.
  destruct keys as [|[line| |] rest]; apply HQ; unfold observed; cbn;
    by rewrite ?Hk, ?Hf, ?Ht.
Qed.

Lemma wp_write_file path contents st keys fs trace Q :
  observed st keys fs trace →
  match disk e path with
  | Written =>
      ∀ st', observed st' keys (<[path := contents]> fs)
               (trace ++ [BackupWritten path contents]) →
             Q (Return tt) st'
  | WriteFailed err =>
      ∀ st', observed st' keys fs (trace ++ [BackupFailed path]) →
             Q (Raise (Exception err)) st'
  | WriteInterrupted =>
      ∀ st', observed st' keys fs trace → Q (Raise KeyboardInterrupt) st'
  | WriteBroken written err =>
      ∀ st', observed st' keys (<[path := first_chars written contents]> fs)
               (trace ++ [BackupFailed path]) →
             Q (Raise (Exception err)) st'
  | WriteCut written =>
      ∀ st', observed st' keys (<[path := first_chars written contents]> fs)
               trace →
             Q (Raise KeyboardInterrupt) st'
  end →
  wp (write_file path contents) e st Q.
Proof.
  intros (Hk & Hf & Ht) HQ. unfold wp, write_file.
  destruct (disk e path); apply HQ; unfold observed; cbn;
    by rewrite ?Hk, ?Hf, ?Ht.
Qed.

Lemma wp_file_exists path st keys fs trace Q :
  observed st keys fs trace →
  Q (Return (bool_decide (is_Some (fs !! path)))) st →
  wp (file_exists path) e st Q.
Proof. intros (Hk & Hf & Ht) HQ. unfold wp, file_exists. cbn. by rewrite Hf. Qed.

Lemma wp_load_requirements path st Q :
  (∀ requirements, Q (Return requirements) st) →
  (∀ err, Q (Raise (Exception err)) st) →
  wp (load_requirements path) e st Q.
Proof.
  intros HQ Hraise. unfold wp, load_requirements.
  destruct (files st !! path) as [contents|]; [|apply HQ].
  destruct (reader e path contents); [apply HQ|apply Hraise].
Qed.

(** A loop that only prints. *)
Lemma wp_for_each_print {A} (l : list A) (body : A → M unit) st keys fs trace Q :
  (∀ x, ∃ s, body x = print s) →
  observed st keys fs trace →
  (∀ st', observed st' keys fs trace → Q (Return tt) st') →
  wp (for_each l body) e st Q.
Proof.
  intros Hbody. revert st. induction l as [|x l IH]; intros st Hst HQ.
  - by apply HQ.
  - cbn [for_each]. apply wp_bind. destruct (Hbody x) as [s ->].
    eapply wp_print; [done|]. intros st' Hst'. by apply IH.
Qed.

End wp_rules.

Section wp_functions.

Context (e : env).
Implicit Types (st : state) (keys : list keyboard) (fs : gmap string string).
Implicit Types (trace : list effect).

(** Listing packages: either the interpreter of the environment is
    missing and nothing happens, or the lister is invoked once and the
    call ends in a mapping, an exception or an interrupt. *)
Lemma wp_get_packages venv_path st keys fs trace Q :
  observed st keys fs trace →
  (∀ st' msg, observed st' keys fs trace → Q (Raise (Exception msg)) st') →
  (∀ st' python, observed st' keys fs (trace ++ [ListerInvoked python]) →
     (∀ packages, Q (Return packages) st') ∧
     (∀ msg, Q (Raise (Exception msg)) st') ∧
     Q (Raise KeyboardInterrupt) st') →
  wp (get_packages venv_path) e st Q.
Proof.
  intros Hst Hmissing Hlisted. unfold get_packages.
  apply wp_bind, wp_ask_env, wp_bind.
  assert (Hrest : ∀ python st0, observed st0 keys fs trace →
    wp (log_effect (ListerInvoked python) ≫= λ _,
        match lister e python with
        | Listed packages =>
            ret (foldl (λ (d : gmap string string) pkg,
                          <[lower pkg.1 := pkg.2]> d) ∅ packages)
        | ListerFailed stderr =>
            print ("Error getting packages: " +:+ stderr) ≫= λ _, ret ∅
        | ListerGarbled err =>
            print ("Error parsing package list: " +:+ err) ≫= λ _, ret ∅
        | ListerRaised err => raise (Exception err)
        | ListerInterrupted => raise KeyboardInterrupt
        end) e st0 Q).
  { intros python st0 Hst0. apply wp_bind.
    eapply wp_log_effect; [exact Hst0|]. intros st1 Hst1.
    destruct (Hlisted st1 python Hst1) as (Hret & Hexn & Hint).
    destruct (lister e python).
    - apply wp_ret, Hret.
    - apply wp_bind. eapply wp_print; [exact Hst1|]. intros st2 Hst2.
      apply wp_ret. by apply (Hlisted st2 python).
    - apply wp_bind. eapply wp_print; [exact Hst1|]. intros st2 Hst2.
      apply wp_ret. by apply (Hlisted st2 python).
    - apply wp_raise, Hexn.
    - apply wp_raise, Hint. }
  destruct venv_path as [venv|].
  - cbv zeta. destruct (negb (path_exists _ _)).
    + apply wp_raise. by apply Hmissing.
    + apply wp_ret. by apply Hrest.
  - apply wp_ret. by apply Hrest.
Qed.

(** The same, keeping what the lister answered. *)
Lemma wp_get_packages_exact venv_path st keys fs trace Q :
  observed st keys fs trace →
  (∀ venv, venv_path = Some venv →
           path_exists e (interpreter e venv_path) = true) →
  (∀ st', observed st' keys fs
            (trace ++ [ListerInvoked (interpreter e venv_path)]) →
     match lister e (interpreter e venv_path) with
     | Listed packages =>
         Q (Return (foldl (λ (d : gmap string string) pkg,
                             <[lower pkg.1 := pkg.2]> d) ∅ packages)) st'
     | ListerFailed _ | ListerGarbled _ => Q (Return ∅) st'
     | ListerRaised err => Q (Raise (Exception err)) st'
     | ListerInterrupted => Q (Raise KeyboardInterrupt) st'
     end) →
  wp (get_packages venv_path) e st Q.
Proof.
  intros Hst Hexists HQ. unfold get_packages.
  apply wp_bind, wp_ask_env, wp_bind.
  assert (Hpython :
    wp (match venv_path with
        | Some venv_path =>
            let python_exe :=
              path_join (path_join venv_path "Scripts") "python.exe" in
            if negb (path_exists e python_exe) then
              raise (Exception ("Virtual environment not found at "
                                +:+ venv_path))
            else ret python_exe
        | None => ret (executable e)
        end) e st
       (λ r st', r = Return (interpreter e venv_path) ∧ st' = st)).
  { destruct venv_path as [venv|]; [|done].
    cbv zeta. specialize (Hexists venv eq_refl). cbn [interpreter] in Hexists.
    by rewrite Hexists. }
  unfold wp in Hpython |- *. destruct Hpython as [-> ->].
  apply wp_bind. eapply wp_log_effect; [exact Hst|]. intros st1 Hst1.
  pose proof (HQ st1 Hst1) as HQ1.
  destruct (lister e (interpreter e venv_path)).
  - by apply wp_ret.
  - apply wp_bind. eapply wp_print; [exact Hst1|]. intros st2 Hst2.
    apply wp_ret. by apply HQ.
  - apply wp_bind. eapply wp_print; [exact Hst1|]. intros st2 Hst2.
    apply wp_ret. by apply HQ.
  - by apply wp_raise.
  - by apply wp_raise.
Qed.

(** The dry run prints and does nothing else. *)
Lemma wp_dry_run packages st keys fs trace Q :
  observed st keys fs trace →
  (∀ st', observed st' keys fs trace → Q (Return tt) st') →
  wp (uninstall_packages packages true) e st Q.
Proof.
  intros Hst HQ. unfold uninstall_packages.
  destruct (decide (packages = ∅)).
  - by eapply wp_print.
  - apply wp_bind. eapply wp_print; [exact Hst|]. intros st1 Hst1.
    apply wp_bind. eapply wp_print; [exact Hst1|]. intros st2 Hst2.
    apply wp_bind. eapply wp_print; [exact Hst2|]. intros st3 Hst3.
    apply wp_bind. eapply wp_for_each_print; [by eauto|exact Hst3|].
    intros st4 Hst4. by eapply wp_print.
Qed.

(** The real removal of a non-empty set invokes the uninstaller once,
    for the elements of the set. *)
Lemma wp_uninstall packages st keys fs trace Q :
  packages ≠ ∅ →
  observed st keys fs trace →
  (∀ st', observed st' keys fs
            (trace ++ [UninstallerInvoked (elements packages)]) →
     uninstaller e (elements packages) = Uninstalled → Q (Return tt) st') →
  (∀ st' err, observed st' keys fs
                (trace ++ [UninstallerInvoked (elements packages)]) →
     uninstaller e (elements packages) = UninstallFailed err →
     Q (Raise (SystemExit 1)) st') →
  (∀ st' err, observed st' keys fs
                (trace ++ [UninstallerInvoked (elements packages)]) →
     uninstaller e (elements packages) = UninstallRaised err →
     Q (Raise (Exception err)) st') →
  (∀ st', observed st' keys fs
            (trace ++ [UninstallerInvoked (elements packages)]) →
     uninstaller e (elements packages) = UninstallInterrupted →
     Q (Raise KeyboardInterrupt) st') →
  wp (uninstall_packages packages false) e st Q.
Proof.
  intros Hne Hst Hok Hfail Hraise Hint. unfold uninstall_packages.
  destruct (decide (packages = ∅)); [done|].
  apply wp_bind. eapply wp_print; [exact Hst|]. intros st1 Hst1.
  apply wp_bind, wp_ask_env, wp_bind.
  eapply wp_log_effect; [exact Hst1|]. intros st2 Hst2.
  destruct (uninstaller e (elements packages)) eqn:Hout.
  - eapply wp_print; [exact Hst2|]. intros st3 Hst3. by apply Hok.
  - apply wp_bind. eapply wp_print; [exact Hst2|]. intros st3 Hst3.
    apply wp_sys_exit. by eapply Hfail.
  - apply wp_raise. by apply Hraise.
  - apply wp_raise. by apply Hint.
Qed.

(** Writing the backup either updates the file and reports success,
    or fails with an exception, or is interrupted; in the last two
    cases the file is left untouched or holds the beginning of the
    backup text. *)
Lemma wp_create_backup g backup_file st keys fs trace Q :
  observed st keys fs trace →
  (∀ st', observed st' keys (<[backup_file := backup_contents g]> fs)
            (trace ++ [BackupWritten backup_file (backup_contents g)]) →
     disk e backup_file = Written → Q (Return true) st') →
  (∀ st' err, observed st' keys fs (trace ++ [BackupFailed backup_file]) →
     disk e backup_file = WriteFailed err → Q (Raise (Exception err)) st') →
  (∀ st', observed st' keys fs trace →
     disk e backup_file = WriteInterrupted → Q (Raise KeyboardInterrupt) st') →
  (∀ st' written err,
     observed st' keys
       (<[backup_file := first_chars written (backup_contents g)]> fs)
       (trace ++ [BackupFailed backup_file]) →
     disk e backup_file = WriteBroken written err →
     Q (Raise (Exception err)) st') →
  (∀ st' written,
     observed st' keys
       (<[backup_file := first_chars written (backup_contents g)]> fs) trace →
     disk e backup_file = WriteCut written → Q (Raise KeyboardInterrupt) st') →
  wp (create_backup g backup_file) e st Q.
Proof.
  intros Hst Hok Hfail Hint Hbroken Hcut. unfold create_backup.
  apply wp_bind. eapply wp_write_file; [exact Hst|].
  destruct (disk e backup_file) eqn:Hdisk.
  - intros st1 Hst1. apply wp_bind.
    eapply wp_print; [exact Hst1|]. intros st2 Hst2.
    eapply wp_file_exists; [exact Hst2|].
    rewrite lookup_insert_eq, bool_decide_eq_true_2 by eauto.
    by apply Hok.
  - intros st1 Hst1. by apply Hfail.
  - intros st1 Hst1. by apply Hint.
  - intros st1 Hst1. by eapply Hbroken.
  - intros st1 Hst1. by eapply Hcut.
Qed.

End wp_functions.

(** ** The main flow *)

Ltac wp_next st H :=
  lazymatch goal with
  | |- wp (mbind _ _) _ _ _ => apply wp_bind
  | |- wp ask_env _ _ _ => apply wp_ask_env; cbv beta iota zeta
  | |- wp (ret _) _ _ _ => apply wp_ret; cbv beta iota
  | |- wp (sys_exit _) _ _ _ => apply wp_sys_exit; cbv beta iota
  | |- wp (print _) _ _ _ =>
      eapply wp_print; [exact H|]; clear dependent st; intros st H;
      cbv beta iota
  | |- wp (for_each _ _) _ _ _ =>
      eapply wp_for_each_print; [by eauto|exact H|]; clear dependent st;
      intros st H; cbv beta iota
  | |- wp (uninstall_packages _ true) _ _ _ =>
      eapply wp_dry_run; [exact H|]; clear dependent st; intros st H;
      cbv beta iota
  | |- wp (uninstall_packages _ false) _ _ _ =>
      eapply wp_uninstall; [eassumption|exact H|..]; clear dependent st;
      [intros st H ?|intros st ? H ?|intros st ? H ?|intros st H ?];
      cbv beta iota
  | |- wp (create_backup _ _) _ _ _ =>
      eapply wp_create_backup; [exact H|..]; clear dependent st;
      [intros st H ?|intros st ? H ?|intros st H ?
      |intros st ? ? H ?|intros st ? H ?]; cbv beta iota
  | |- wp (get_packages _) _ _ _ =>
      eapply wp_get_packages; [exact H|..]; clear dependent st;
      [intros st ? H|
       intros st ? H; split; [intros ?packages|split; [intros ?msg|]]];
      cbv beta iota
  | |- wp (input _) _ _ _ =>
      eapply wp_input; [exact H|];
      match type of H with
      | observed _ ?k _ _ => destruct k as [|[?answer| |] ?rest]
      end;
      clear dependent st; intros st H; cbv beta iota
  | |- wp (load_requirements _) _ _ _ =>
      apply wp_load_requirements; [intros ?requirements|intros ?err];
      cbv beta iota
  | |- wp (if ?c then _ else _) _ _ _ => destruct c
  end.

(** Steps up to the next branch on the surroundings or call of the
    lister. *)
Ltac wp_straight st H :=
  repeat lazymatch goal with
         | |- wp (if _ then _ else _) _ _ _ => fail
         | |- wp (get_packages _) _ _ _ => fail
         | |- _ => wp_next st H
         end.

Lemma expected_answer_continue : expected_answer continue_prompt = "y".
Proof. reflexivity. Qed.

Lemma expected_answer_backup : expected_answer backup_prompt = "y".
Proof. reflexivity. Qed.

Lemma expected_answer_final : expected_answer final_prompt = "yes".
Proof. reflexivity. Qed.

Ltac elem_split H :=
  lazymatch type of H with
  | _ ∈ [] => apply elem_of_nil in H; destruct H
  | _ ∈ _ :: _ => apply elem_of_cons in H as [H|H]; [|elem_split H]
  end.

Ltac find_elem :=
  first [apply list_elem_of_here | apply list_elem_of_further; find_elem].

Ltac yes_answers :=
  repeat match goal with
         | n : ¬ (_ ≠ _) |- _ => apply dec_stable in n
         end.

Ltac prove_confirmed :=
  split; [|split];
  [eexists _, _; find_elem
  |eexists; split; [find_elem|eassumption]
  |eexists; split; [find_elem|eassumption]].

Ltac prove_guarded :=
  cbn [guarded app];
  repeat lazymatch goal with
         | |- True => exact I
         | |- True ∧ _ => split; [exact I|]
         | |- confirmed _ ∧ _ => split; [prove_confirmed|]
         end.

Ltac prove_facts H :=
  destruct H as (_ & _ & H); rewrite H; cbn [app]; yes_answers;
  split; [|split; [|split]];
  [prove_guarded
  |let Hin := fresh in
   intros ? Hin; elem_split Hin; try discriminate Hin;
   (split; [reflexivity|eauto])
  |let Hin := fresh in let Hd := fresh in
   intros ? Hin Hd; elem_split Hin; subst; cbn [declined] in Hd;
   try contradiction;
   (rewrite ?expected_answer_continue, ?expected_answer_backup,
      ?expected_answer_final in Hd;
    first [contradiction | split; reflexivity])
  |let Hr := fresh in let Hu := fresh in
   intros Hr Hu;
   first [discriminate Hr | reflexivity | exfalso; eapply Hu; eassumption]].

(** Every run of [main] from a state with an empty trace ends with a
    result and a trace that satisfy [main_facts]. *)
Lemma main_has_facts e keys fs st :
  observed st keys fs [] →
  wp main e st (λ r st', main_facts e r (effects st')).
Proof.
  intros H. unfold main.
  repeat wp_next st H.
  all: prove_facts H.
Qed.

Section run_facts.

Context (e : env).
Implicit Types (keys : list keyboard) (fs : gmap string string).
Implicit Types (trace seen : list effect).

(** The [__main__] block turns the result of [main] into an exit status
    and performs no further action. *)
Lemma run_eq keys fs :
  run e keys fs
  = (status_of (main e (initial keys fs)).1,
     effects (main e (initial keys fs)).2).
Proof.
  unfold run, script, try_except.
  destruct (main e (initial keys fs)) as [[[]|[code| |msg]] st']; reflexivity.
Qed.

Lemma run_has_facts keys fs :
  main_facts e (main e (initial keys fs)).1 (run e keys fs).2.
Proof.
  rewrite run_eq. cbn [snd]. by apply (main_has_facts e keys fs).
Qed.

Lemma guarded_spec seen trace (before after : list effect) packages :
  guarded seen trace →
  trace = (before ++ UninstallerInvoked packages :: after)%list →
  confirmed (seen ++ before)%list.
Proof.
  revert seen before. induction trace as [|x trace IH]; intros seen before.
  - intros _ Heq. by destruct before.
  - cbn [guarded]. intros [Hx Hrest] Heq. destruct before as [|y before].
    + injection Heq as -> _. by rewrite app_nil_r.
    + injection Heq as -> Heq.
      rewrite (cons_middle y), app_assoc. by apply IH.
Qed.

Lemma uninstalls_nil trace :
  uninstalls trace = [] ↔ ∀ packages, UninstallerInvoked packages ∉ trace.
Proof.
  unfold uninstalls. induction trace as [|x trace IH].
  - split; [|done]. intros _ packages Hin. by apply elem_of_nil in Hin.
  - cbn [omap list_omap]. destruct x; cbn.
    1-4: rewrite IH; split;
         [intros Hno packages Hin; apply elem_of_cons in Hin as [Hin|Hin];
          [discriminate Hin|by apply (Hno packages)]
         |intros Hno packages Hin; apply (Hno packages);
          by apply list_elem_of_further].
    split; [discriminate|].
    intros Hno. destruct (Hno packages). apply list_elem_of_here.
Qed.

End run_facts.

(** ** Claims about the main flow *)

(** C1. In every run the uninstaller is invoked (the removal with
    [dry_run = False]; the dry run invokes nothing) only after a backup
    file has been written and after both confirmation prompts have been
    answered with a yes; and when the backup write fails, the
    uninstaller is never invoked and the exit status is 1. *)
Theorem uninstall_needs_backup_and_confirmations
    (e : env) (keys : list keyboard) (fs : gmap string string) :
  (∀ (before after : list effect) packages,
     (run e keys fs).2 = (before ++ UninstallerInvoked packages :: after)%list →
     (∃ path contents, BackupWritten path contents ∈ before) ∧
     (∃ answer, Asked backup_prompt answer ∈ before ∧ lower answer = "y") ∧
     (∃ answer, Asked final_prompt answer ∈ before ∧ lower answer = "yes")) ∧
  (∀ path,
     BackupFailed path ∈ (run e keys fs).2 →
     (∀ packages, UninstallerInvoked packages ∉ (run e keys fs).2) ∧
     (run e keys fs).1 = 1%Z).
Proof.
  destruct (run_has_facts e keys fs) as (Hguard & Hfail & _).
  split.
  - intros before after packages Heq.
    apply (guarded_spec [] _ before after packages Hguard Heq).
  - intros path Hin. destruct (Hfail path Hin) as [Hnone [msg Hr]].
    split; [by apply uninstalls_nil|].
    rewrite run_eq. cbn [fst]. by rewrite Hr.
Qed.

Lemma uninstall_needs_backup_and_confirmations_witness :
  ((∃ path contents,
      BackupWritten path contents
      ∈ [ListerInvoked "/project/venv/Scripts/python.exe";
         ListerInvoked "/usr/bin/python3";
         Asked backup_prompt "y";
         BackupWritten "global_packages_backup_20240101_120000.txt"
           (backup_contents scenario_global);
         Asked final_prompt "YES"]) ∧
   (∃ answer,
      Asked backup_prompt answer
      ∈ [ListerInvoked "/project/venv/Scripts/python.exe";
         ListerInvoked "/usr/bin/python3";
         Asked backup_prompt "y";
         BackupWritten "global_packages_backup_20240101_120000.txt"
           (backup_contents scenario_global);
         Asked final_prompt "YES"] ∧ lower answer = "y") ∧
   (∃ answer,
      Asked final_prompt answer
      ∈ [ListerInvoked "/project/venv/Scripts/python.exe";
         ListerInvoked "/usr/bin/python3";
         Asked backup_prompt "y";
         BackupWritten "global_packages_backup_20240101_120000.txt"
           (backup_contents scenario_global);
         Asked final_prompt "YES"] ∧ lower answer = "yes")) ∧
  ((∀ packages,
      UninstallerInvoked packages
      ∉ (run (scenario_env (WriteFailed "denied") Uninstalled)
           [Typed "y"; Typed "yes"] scenario_files).2) ∧
   (run (scenario_env (WriteFailed "denied") Uninstalled)
      [Typed "y"; Typed "yes"] scenario_files).1 = 1%Z).
Proof.
  split.
  - apply (proj1 (uninstall_needs_backup_and_confirmations
                    (scenario_env Written Uninstalled)
                    [Typed "y"; Typed "YES"] scenario_files)
             _ [] ["flask"]).
    vm_compute. reflexivity.
  - apply (proj2 (uninstall_needs_backup_and_confirmations
                    (scenario_env (WriteFailed "denied") Uninstalled)
                    [Typed "y"; Typed "yes"] scenario_files)
             "global_packages_backup_20240101_120000.txt").
    assert ((run (scenario_env (WriteFailed "denied") Uninstalled)
               [Typed "y"; Typed "yes"] scenario_files).2
            = [ListerInvoked "/project/venv/Scripts/python.exe";
               ListerInvoked "/usr/bin/python3";
               Asked backup_prompt "y";
               BackupFailed "global_packages_backup_20240101_120000.txt"])
      as -> by (vm_compute; reflexivity).
    do 3 apply list_elem_of_further. apply list_elem_of_here.
Defined.

(** ** Further properties of the classification *)

Section classification_more.

Implicit Types (g v : gmap string string) (r deps : gset string).
Implicit Types (x pkg : string) (l : list string).

Lemma protected_essential x : lower x = x → ¬ protected x → x ∉ ESSENTIAL_TOOLS.
Proof. intros Hx Hp Hin. apply Hp. right. by rewrite Hx. Qed.

Lemma elem_of_safe_to_remove_lowercased g v r x :
  lowercased g →
  x ∈ (identify_safe_to_remove g v r).1
  ↔ x ∈ dom g ∧ x ∈ dom v ∧ ¬ protected x.
Proof.
  intros Hg. rewrite elem_of_safe_to_remove, elem_of_project_dependencies.
  split.
  - intros (Hx & Hp & Hv & _). rewrite (Hg x Hx) in Hv. done.
  - intros (Hx & Hv & Hp). pose proof (Hg x Hx) as Hlow.
    rewrite Hlow. split; [done|]. split; [done|]. split; [done|].
    left. right. split; [done|]. split; [done|].
    by apply protected_essential.
Qed.

Lemma nothing_to_remove_without_venv g r :
  (identify_safe_to_remove g ∅ r).1 = ∅.
Proof.
  apply set_eq. intros x. rewrite elem_of_safe_to_remove, dom_empty_L.
  split.
  - intros (_ & _ & H & _). by apply not_elem_of_empty in H.
  - intros H. by apply not_elem_of_empty in H.
Qed.

End classification_more.

(** X1. [identify_project_dependencies] returns only names of global
    packages; it returns every declared dependency that is installed
    globally, also when the name is an essential tool; and an essential
    tool enters the result only by being declared. *)
Theorem project_dependencies_are_global
    (g v : gmap string string) (r : gset string) :
  identify_project_dependencies g v r ⊆ dom g ∧
  r ∩ dom g ⊆ identify_project_dependencies g v r ∧
  (dom g ∩ dom v) ∖ ESSENTIAL_TOOLS ⊆ identify_project_dependencies g v r ∧
  identify_project_dependencies g v r ∩ ESSENTIAL_TOOLS ⊆ r.
Proof.
  generalize (elem_of_project_dependencies g v r).
  generalize (identify_project_dependencies g v r) ESSENTIAL_TOOLS.
  intros deps essential Hdeps.
  repeat split; intros x; specialize (Hdeps x); set_solver.
Qed.

(** X2. When the names of the global packages are lowercased, as
    [get_packages] returns them, the declared dependencies have no
    influence on the classification: a package is proposed for removal
    exactly when it is installed globally and in the project environment
    and is not protected. *)
Theorem requirements_do_not_matter
    (g v : gmap string string) (r r' : gset string) :
  lowercased g →
  (∀ pkg, pkg ∈ (identify_safe_to_remove g v r).1
          ↔ pkg ∈ dom g ∧ pkg ∈ dom v ∧ ¬ protected pkg) ∧
  identify_safe_to_remove g v r = identify_safe_to_remove g v r'.
Proof.
  intros Hg. split.
  - intros pkg. by apply elem_of_safe_to_remove_lowercased.
  - destruct (identify_safe_to_remove g v r) as [safe keep] eqn:E.
    destruct (identify_safe_to_remove g v r') as [safe' keep'] eqn:E'.
    f_equal.
    + apply set_eq. intros x.
      change safe with (safe, keep).1. change safe' with (safe', keep').1.
      rewrite <- E, <- E'. by rewrite !elem_of_safe_to_remove_lowercased.
    + apply set_eq. intros x.
      change keep with (safe, keep).2. change keep' with (safe', keep').2.
      rewrite <- E, <- E'. by rewrite !elem_of_keep.
Qed.

Lemma requirements_do_not_matter_witness :
  identify_safe_to_remove scenario_global scenario_project scenario_declared
  = identify_safe_to_remove scenario_global scenario_project ∅.
Proof.
  apply (requirements_do_not_matter scenario_global scenario_project
           scenario_declared ∅).
  intros name Hname.
  assert (dom scenario_global = {["flask"; "pip"; "black"]}) as Hdom
    by (vm_compute; reflexivity).
  rewrite Hdom in Hname.
  apply elem_of_union in Hname as [Hname|Hname];
    [apply elem_of_union in Hname as [Hname|Hname]|];
    apply elem_of_singleton in Hname as ->; reflexivity.
Defined.

(** X3. The classification looks at names only: two pairs of mappings
    with the same keys are classified alike, whatever the versions; and
    installing more packages in the project environment or declaring
    more dependencies never takes a package out of the removal set. *)
Theorem classification_ignores_versions
    (g g' v v' : gmap string string) (r r' : gset string) :
  (dom g = dom g' → dom v = dom v' →
   identify_safe_to_remove g v r = identify_safe_to_remove g' v' r) ∧
  (dom v ⊆ dom v' → r ⊆ r' →
   (identify_safe_to_remove g v r).1 ⊆ (identify_safe_to_remove g v' r').1).
Proof.
  split.
  - intros Hg Hv.
    destruct (identify_safe_to_remove g v r) as [safe keep] eqn:E.
    destruct (identify_safe_to_remove g' v' r) as [safe' keep'] eqn:E'.
    f_equal.
    + apply set_eq. intros x.
      change safe with (safe, keep).1. change safe' with (safe', keep').1.
      rewrite <- E, <- E'.
      rewrite !elem_of_safe_to_remove, !elem_of_project_dependencies.
      by rewrite Hg, Hv.
    + apply set_eq. intros x.
      change keep with (safe, keep).2. change keep' with (safe', keep').2.
      rewrite <- E, <- E'. by rewrite !elem_of_keep, Hg.
  - intros Hv Hr x.
    rewrite !elem_of_safe_to_remove, !elem_of_project_dependencies.
    generalize ESSENTIAL_TOOLS (protected x). intros essential P.
    set_solver.
Qed.

Lemma classification_ignores_versions_witness :
  identify_safe_to_remove scenario_global scenario_project scenario_declared
  = identify_safe_to_remove
      (<["flask" := "3.1"]> (<["pip" := "24.0"]> (<["black" := "25.1"]> ∅)))
      {["flask" := "0.12"]} scenario_declared
  ∧ (identify_safe_to_remove scenario_global ∅ ∅).1
    ⊆ (identify_safe_to_remove scenario_global scenario_project
         scenario_declared).1.
Proof.
  split.
  - apply (proj1 (classification_ignores_versions scenario_global
                    (<["flask" := "3.1"]> (<["pip" := "24.0"]> (<["black" := "25.1"]> ∅)))
                    scenario_project {["flask" := "0.12"]}
                    scenario_declared scenario_declared)).
    + vm_compute. reflexivity.
    + vm_compute. reflexivity.
  - apply (proj2 (classification_ignores_versions scenario_global scenario_global
                    ∅ scenario_project ∅ scenario_declared)).
    + rewrite dom_empty_L. apply empty_subseteq.
    + apply empty_subseteq.
Defined.

(** ** Further properties of the manifest parser *)

Section parser_more.

Implicit Types (s t u n pad : string) (c a : ascii).

Lemma startswith_nil s : startswith "" s = true.
Proof. by destruct s. Qed.

Lemma startswith_cons a t c s :
  startswith (String a t) (String c s) = bool_decide (a = c) && startswith t s.
Proof.
  unfold startswith. simpl.
  destruct (ascii_dec a c); case_bool_decide; done.
Qed.

Lemma specifier_starts_cons c s :
  specifier_starts (String c s)
  = bool_decide (">"%char = c) || bool_decide ("<"%char = c)
    || bool_decide ("["%char = c)
    || (bool_decide ("="%char = c) && startswith "=" s).
Proof.
  unfold specifier_starts. rewrite !startswith_cons, !startswith_nil.
  destruct (bool_decide (">"%char = c)), (bool_decide ("<"%char = c)),
    (bool_decide ("["%char = c)), (bool_decide ("="%char = c)),
    (startswith "=" s); reflexivity.
Qed.

Lemma specifier_starts_space c s :
  is_space c = true → specifier_starts (String c s) = false.
Proof.
  intros Hc. rewrite specifier_starts_cons.
  rewrite !bool_decide_eq_false_2; [reflexivity|..];
    intros <-; discriminate Hc.
Qed.

Lemma specifier_starts_plain c s :
  name_char c = true → specifier_starts (String c s) = false.
Proof.
  intros Hc. apply name_char_spec in Hc as (_ & ? & ? & ? & ? & _).
  rewrite specifier_starts_cons, !bool_decide_eq_false_2 by done.
  reflexivity.
Qed.

Lemma rstrip_space_head c s :
  is_space c = true → rstrip (String c s) = "" ∨ rstrip (String c s) = String c (rstrip s).
Proof. intros Hc. simpl. rewrite Hc. destruct (rstrip s); auto. Qed.

Lemma startswith_rstrip a s :
  is_space a = false →
  startswith (String a "") (rstrip s) = startswith (String a "") s.
Proof.
  intros Ha. destruct s as [|c s]; [reflexivity|].
  destruct (is_space c) eqn:Hc.
  - assert (a ≠ c) as Hne by congruence.
    rewrite (startswith_other a "" c s Hne).
    destruct (rstrip_space_head c s Hc) as [-> | ->]; [reflexivity|].
    by apply startswith_other.
  - rewrite rstrip_cons by done. by rewrite !startswith_cons, !startswith_nil.
Qed.

Lemma specifier_starts_rstrip s :
  specifier_starts (rstrip s) = specifier_starts s.
Proof.
  destruct s as [|c s]; [reflexivity|].
  destruct (is_space c) eqn:Hc.
  - rewrite (specifier_starts_space c s Hc).
    destruct (rstrip_space_head c s Hc) as [-> | ->]; [reflexivity|].
    by apply specifier_starts_space.
  - rewrite rstrip_cons by done. rewrite !specifier_starts_cons.
    by rewrite startswith_rstrip.
Qed.

Lemma bare_name_spec_cons c s :
  bare_name_spec (String c s)
  = if specifier_starts (String c s) then "" else String c (bare_name_spec s).
Proof. reflexivity. Qed.

Lemma bare_name_spec_starts s : specifier_starts s = true → bare_name_spec s = "".
Proof.
  destruct s as [|c s]; [reflexivity|].
  rewrite bare_name_spec_cons. by intros ->.
Qed.

Lemma bare_name_spec_cut n t :
  plain_name n = true → specifier_starts t = true → bare_name_spec (n +:+ t) = n.
Proof.
  intros Hn Ht. induction n as [|c n IH]; [by apply bare_name_spec_starts|].
  unfold plain_name in Hn. cbn [all_chars] in Hn.
  apply andb_true_iff in Hn as [Hc Hn].
  rewrite string_app_cons, bare_name_spec_cons, specifier_starts_plain by done.
  by rewrite IH.
Qed.

Lemma bare_name_spec_fixed s : no_specifier s = true → bare_name_spec s = s.
Proof.
  induction s as [|c s IH]; [reflexivity|].
  cbn [no_specifier]. rewrite andb_true_iff, negb_true_iff. intros [Hc Hs].
  rewrite bare_name_spec_cons, Hc. by rewrite IH.
Qed.

Lemma no_specifier_plain n : plain_name n = true → no_specifier n = true.
Proof.
  induction n as [|c n IH]; [reflexivity|].
  unfold plain_name. cbn [all_chars no_specifier]. rewrite andb_true_iff.
  intros [Hc Hn]. rewrite specifier_starts_plain by done. by apply IH.
Qed.

Lemma rstrip_spaces s : all_chars is_space s = true → rstrip s = "".
Proof.
  induction s as [|c s IH]; [reflexivity|].
  cbn [all_chars]. rewrite andb_true_iff. intros [Hc Hs].
  simpl. rewrite IH by done. by rewrite Hc.
Qed.

Lemma lstrip_spaces_app pad s :
  all_chars is_space pad = true → lstrip (pad +:+ s) = lstrip s.
Proof.
  induction pad as [|c pad IH]; [reflexivity|].
  cbn [all_chars]. rewrite andb_true_iff. intros [Hc Hpad].
  rewrite string_app_cons. cbn [lstrip]. rewrite Hc. by apply IH.
Qed.

Lemma rstrip_name_spaces n s :
  all_chars (λ c, negb (is_space c)) n = true →
  all_chars is_space s = true → rstrip (n +:+ s) = n.
Proof.
  intros Hn Hs. induction n as [|c n IH]; [by apply rstrip_spaces|].
  cbn [all_chars] in Hn. apply andb_true_iff in Hn as [Hc Hn].
  apply negb_true_iff in Hc.
  rewrite string_app_cons, rstrip_cons by done. by rewrite IH.
Qed.

(** What stripping makes of a line that holds a plain name and then a
    specifier or white space. *)
Lemma strip_name_line pad n rest :
  all_chars is_space pad = true →
  plain_name n = true → n ≠ "" →
  specifier_starts rest = true ∨ all_chars is_space rest = true →
  ∃ rest', strip (pad +:+ n +:+ rest) = n +:+ rest' ∧
           (specifier_starts rest' = true ∨ rest' = "").
Proof.
  intros Hpad Hn Hne Hrest. unfold strip.
  rewrite lstrip_spaces_app by done.
  assert (lstrip (n +:+ rest) = n +:+ rest) as ->.
  { destruct n as [|c n]; [done|].
    unfold plain_name in Hn. cbn [all_chars] in Hn.
    apply andb_true_iff in Hn as [Hc _].
    apply name_char_spec in Hc as (Hc & _).
    rewrite string_app_cons. cbn [lstrip]. by rewrite Hc. }
  destruct Hrest as [Hrest|Hrest].
  - exists (rstrip rest). rewrite specifier_starts_rstrip.
    split; [|by left]. apply rstrip_app.
    intros Hnil. rewrite <- specifier_starts_rstrip, Hnil in Hrest.
    discriminate Hrest.
  - exists "". rewrite string_app_nil_r. split; [|by right].
    apply rstrip_name_spaces; [by apply plain_name_no_space|done].
Qed.

Lemma lstrip_head s c u : lstrip s = String c u → is_space c = false.
Proof.
  induction s as [|c' s IH]; [discriminate|].
  cbn [lstrip]. destruct (is_space c') eqn:Hc'; [exact IH|].
  intros [= <- _]. exact Hc'.
Qed.

Lemma strip_head s c u :
  strip s = String c u → is_space c = false ∧ ∃ w, lstrip s = String c w.
Proof.
  unfold strip. destruct (lstrip s) as [|c' w] eqn:Hs; [discriminate|].
  pose proof (lstrip_head s c' w Hs) as Hc'.
  rewrite rstrip_cons by done. intros [= <- _]. eauto.
Qed.

Lemma rstrip_idemp s : rstrip (rstrip s) = rstrip s.
Proof.
  induction s as [|c s IH]; [reflexivity|].
  cbn [rstrip]. destruct (rstrip s) as [|c' t] eqn:Hs.
  - destruct (is_space c) eqn:Hc; [reflexivity|]. simpl. by rewrite Hc.
  - cbn [rstrip]. cbn [rstrip] in IH. rewrite IH. reflexivity.
Qed.

Lemma strip_rstrip_head c s :
  is_space c = false → strip (rstrip (String c s)) = rstrip (String c s).
Proof.
  intros Hc. rewrite rstrip_cons by done. unfold strip.
  cbn [lstrip]. rewrite Hc.
  rewrite <- (rstrip_cons c s Hc). apply rstrip_idemp.
Qed.

Lemma is_space_lower c : is_space (lower_ascii c) = is_space c.
Proof. by destruct c as [[] [] [] [] [] [] [] []]. Qed.

Lemma lstrip_lower s : lstrip (lower s) = lower (lstrip s).
Proof.
  induction s as [|c s IH]; [reflexivity|].
  cbn [lower lstrip]. rewrite is_space_lower.
  destruct (is_space c); [exact IH|reflexivity].
Qed.

Lemma rstrip_lower s : rstrip (lower s) = lower (rstrip s).
Proof.
  induction s as [|c s IH]; [reflexivity|].
  cbn [lower rstrip]. rewrite IH, is_space_lower.
  destruct (rstrip s); cbn [lower]; [|reflexivity].
  by destruct (is_space c).
Qed.

Lemma strip_lower s : strip (lower s) = lower (strip s).
Proof. unfold strip. by rewrite lstrip_lower, rstrip_lower. Qed.

Lemma lower_ascii_specifier c :
  (">"%char = lower_ascii c ↔ ">"%char = c) ∧
  ("<"%char = lower_ascii c ↔ "<"%char = c) ∧
  ("["%char = lower_ascii c ↔ "["%char = c) ∧
  ("="%char = lower_ascii c ↔ "="%char = c) ∧
  ("#"%char = lower_ascii c ↔ "#"%char = c).
Proof.
  destruct c as [[] [] [] [] [] [] [] []]; vm_compute;
    repeat split; intros; congruence.
Qed.

Lemma startswith_lower a s :
  ("="%char = a ∨ "#"%char = a) →
  startswith (String a "") (lower s) = startswith (String a "") s.
Proof.
  intros Ha. destruct s as [|c s]; [reflexivity|].
  cbn [lower]. rewrite !startswith_cons, !startswith_nil. f_equal.
  destruct (lower_ascii_specifier c) as (_ & _ & _ & Heq & Hhash).
  apply bool_decide_ext. destruct Ha as [<-|<-]; done.
Qed.

Lemma specifier_starts_lower s :
  specifier_starts (lower s) = specifier_starts s.
Proof.
  destruct s as [|c s]; [reflexivity|].
  cbn [lower]. rewrite !specifier_starts_cons.
  destruct (lower_ascii_specifier c) as (Hgt & Hlt & Hbr & Heq & _).
  rewrite (bool_decide_ext _ _ Hgt), (bool_decide_ext _ _ Hlt),
    (bool_decide_ext _ _ Hbr), (bool_decide_ext _ _ Heq).
  by rewrite startswith_lower by auto.
Qed.

Lemma no_specifier_lower s : no_specifier (lower s) = no_specifier s.
Proof.
  induction s as [|c s IH]; [reflexivity|].
  cbn [lower no_specifier]. rewrite IH.
  change (String (lower_ascii c) (lower s)) with (lower (String c s)).
  by rewrite specifier_starts_lower.
Qed.

Lemma no_specifier_rstrip s :
  no_specifier s = true → no_specifier (rstrip s) = true.
Proof.
  induction s as [|c s IH]; [reflexivity|].
  cbn [no_specifier]. rewrite andb_true_iff, negb_true_iff. intros [Hc Hs].
  rewrite <- specifier_starts_rstrip in Hc.
  cbn [rstrip] in Hc |- *. specialize (IH Hs).
  destruct (rstrip s) as [|c' t].
  - destruct (is_space c); [reflexivity|].
    cbn [no_specifier]. by rewrite Hc.
  - cbn [no_specifier] in IH |- *. by rewrite Hc, IH.
Qed.

Lemma specifier_starts_bare s : specifier_starts (bare_name_spec s) = false.
Proof.
  destruct s as [|c s]; [reflexivity|].
  rewrite bare_name_spec_cons.
  destruct (specifier_starts (String c s)) eqn:Hc; [reflexivity|].
  rewrite specifier_starts_cons in Hc |- *.
  apply orb_false_iff in Hc as [Hc Heq]. rewrite Hc. cbn [orb].
  destruct (bool_decide ("="%char = c)); [|reflexivity].
  cbn [andb] in Heq |- *.
  destruct s as [|c' s]; [reflexivity|].
  rewrite bare_name_spec_cons.
  destruct (specifier_starts (String c' s)); [reflexivity|].
  by rewrite startswith_cons, startswith_nil in Heq |- *.
Qed.

Lemma no_specifier_bare s : no_specifier (bare_name_spec s) = true.
Proof.
  induction s as [|c s IH]; [reflexivity|].
  pose proof (specifier_starts_bare (String c s)) as Hc.
  rewrite bare_name_spec_cons in Hc |- *.
  destruct (specifier_starts (String c s)); [reflexivity|].
  cbn [no_specifier]. by rewrite Hc, IH.
Qed.

(** An entry of the manifest, taken apart. *)
Lemma requirement_of_line_inv line name :
  requirement_of_line line = Some name →
  strip line ≠ "" ∧ startswith "#" (strip line) = false ∧
  name = lower (rstrip (bare_name_spec (strip line))).
Proof.
  unfold requirement_of_line.
  destruct (String.eqb_spec (strip line) "") as [|Hne]; [discriminate|].
  destruct (startswith "#" (strip line)) eqn:Hhash; [discriminate|].
  cbn [negb andb]. intros [= <-]. rewrite strip_version_specifier_spec.
  split; [done|]. split; [done|]. f_equal.
  destruct (strip line) as [|c u] eqn:Hline; [done|].
  apply strip_head in Hline as [Hc _].
  rewrite bare_name_spec_cons.
  destruct (specifier_starts (String c u)); [reflexivity|].
  unfold strip. cbn [lstrip]. by rewrite Hc.
Qed.

End parser_more.

(** X4. A manifest line that holds a plain package name, possibly after
    white space, followed by a version specifier or extras bracket with
    whatever comes after it, or by white space only, contributes the
    lowercased name. *)
Theorem requirement_name_before_specifier (pad name rest : string) :
  all_chars is_space pad = true →
  plain_name name = true → name ≠ "" →
  specifier_starts rest = true ∨ all_chars is_space rest = true →
  requirement_of_line (pad +:+ name +:+ rest) = Some (lower name).
Proof.
  intros Hpad Hname Hne Hrest.
  destruct (strip_name_line pad name rest Hpad Hname Hne Hrest)
    as (rest' & Hstrip & Hrest').
  unfold requirement_of_line. rewrite Hstrip.
  destruct name as [|c name]; [done|].
  pose proof Hname as Hc. unfold plain_name in Hc. cbn [all_chars] in Hc.
  apply andb_true_iff in Hc as [Hc _].
  apply name_char_spec in Hc as (_ & _ & _ & _ & _ & Hhash).
  rewrite string_app_cons.
  rewrite (startswith_other "#" "" c _ Hhash).
  change (String c (name +:+ rest') =? "") with false. cbn [negb andb].
  rewrite <- string_app_cons, strip_version_specifier_spec.
  destruct Hrest' as [Hrest'| ->].
  - rewrite bare_name_spec_cut by done. by rewrite strip_plain_name.
  - rewrite string_app_nil_r, bare_name_spec_fixed
      by by apply no_specifier_plain.
    by rewrite strip_plain_name.
Qed.

Lemma requirement_name_before_specifier_witness :
  requirement_of_line ("  " +:+ "Django" +:+ "[argon2]~=4.2 ; python_version>'3.8'")
  = Some (lower "Django").
Proof.
  apply (requirement_name_before_specifier "  " "Django"
           "[argon2]~=4.2 ; python_version>'3.8'").
  - reflexivity.
  - reflexivity.
  - discriminate.
  - left. reflexivity.
Defined.

(** X5. A manifest line whose text begins, after leading white space,
    with a version specifier or a bracket is not skipped: it contributes
    the empty name, which then is an element of the set that
    [load_requirements] returns. *)
Theorem specifier_without_name_gives_empty_entry :
  (∀ line, specifier_starts (lstrip line) = true →
           requirement_of_line line = Some "") ∧
  (∀ contents line,
     line ∈ file_lines (universal_newlines contents) →
     specifier_starts (lstrip line) = true →
     "" ∈ parse_requirements contents).
Proof.
  assert (Hline : ∀ line, specifier_starts (lstrip line) = true →
                          requirement_of_line line = Some "").
  { intros line Hstart. unfold requirement_of_line.
    assert (specifier_starts (strip line) = true) as Hstrip
      by (unfold strip; by rewrite specifier_starts_rstrip).
    destruct (strip line) as [|c u] eqn:Hs; [discriminate Hstrip|].
    assert ("#"%char ≠ c) as Hhash.
    { intros <-. discriminate Hstrip. }
    rewrite (startswith_other "#" "" c u Hhash).
    change (String c u =? "") with false. cbn [negb andb].
    rewrite strip_version_specifier_spec, bare_name_spec_starts by done.
    reflexivity. }
  split; [exact Hline|].
  intros contents line Hin Hstart. apply elem_of_parse_requirements.
  exists line. auto.
Qed.

Lemma specifier_without_name_gives_empty_entry_witness :
  requirement_of_line " >=2.0" = Some "" ∧
  "" ∈ parse_requirements ("flask" +:+ NL +:+ "==1.0" +:+ NL).
Proof.
  destruct specifier_without_name_gives_empty_entry as [Hline Hfile].
  split.
  - apply Hline. reflexivity.
  - apply (Hfile _ ("==1.0" +:+ NL)).
    + vm_compute. apply list_elem_of_further, list_elem_of_here.
    + reflexivity.
Defined.

(** X6. Every entry that the manifest parser keeps is in normal form:
    it is lowercased, has no white space at either end, and no version
    specifier or bracket begins anywhere in it; and unless it is the
    empty name, the entry written on a line of its own parses to
    itself. *)
Theorem manifest_entries_are_normal (line name : string) :
  requirement_of_line line = Some name →
  lower name = name ∧ strip name = name ∧ no_specifier name = true ∧
  (name ≠ "" → requirement_of_line name = Some name).
Proof.
  intros Hline.
  apply requirement_of_line_inv in Hline as (Hne & Hhash & ->).
  destruct (strip line) as [|c u] eqn:Hs; [done|].
  apply strip_head in Hs as [Hc _].
  assert (Hspec : no_specifier (lower (rstrip (bare_name_spec (String c u)))) = true).
  { rewrite no_specifier_lower. apply no_specifier_rstrip, no_specifier_bare. }
  rewrite bare_name_spec_cons in Hspec |- *.
  destruct (specifier_starts (String c u)) eqn:Hstart.
  { repeat split; try reflexivity. intros H. by destruct H. }
  assert (Hstrip : strip (lower (rstrip (String c (bare_name_spec u))))
                   = lower (rstrip (String c (bare_name_spec u)))).
  { by rewrite strip_lower, strip_rstrip_head. }
  split; [apply lower_idemp|]. split; [exact Hstrip|]. split; [exact Hspec|].
  intros _. unfold requirement_of_line. rewrite Hstrip.
  rewrite strip_version_specifier_spec, (bare_name_spec_fixed _ Hspec).
  rewrite Hstrip, lower_idemp.
  rewrite rstrip_cons by done. cbn [lower].
  rewrite startswith_cons, startswith_nil in Hhash |- *.
  destruct (lower_ascii_specifier c) as (_ & _ & _ & _ & Hh).
  rewrite (bool_decide_ext _ _ Hh), Hhash. reflexivity.
Qed.

Lemma manifest_entries_are_normal_witness :
  requirement_of_line "requests" = Some "requests".
Proof.
  refine (proj2 (proj2 (proj2 (manifest_entries_are_normal
            "  Requests [security] >= 2.0" "requests" _))) _).
  - reflexivity.
  - discriminate.
Defined.

(** ** Further properties of the script functions *)

Section listing_facts.

Implicit Types (d : gmap string string) (l : list (string * string)).

Lemma dom_foldl_insert d l :
  dom (foldl (λ (d : gmap string string) pkg, <[lower pkg.1 := pkg.2]> d) d l)
  = dom d ∪ list_to_set ((λ pkg, lower pkg.1) <$> l).
Proof.
  revert d. induction l as [|pkg l IH]; intros d; cbn [foldl].
  - rewrite fmap_nil, list_to_set_nil. set_solver.
  - rewrite IH, dom_insert_L, fmap_cons, list_to_set_cons. set_solver.
Qed.

Lemma lookup_foldl_insert_ne d l name :
  (∀ pkg, pkg ∈ l → lower pkg.1 ≠ name) →
  foldl (λ (d : gmap string string) pkg, <[lower pkg.1 := pkg.2]> d) d l !! name
  = d !! name.
Proof.
  revert d. induction l as [|pkg l IH]; intros d Hl; cbn [foldl]; [done|].
  rewrite IH.
  - apply lookup_insert_ne, Hl, list_elem_of_here.
  - intros pkg' Hin. by apply Hl, list_elem_of_further.
Qed.

Lemma elem_of_packages_dict l name :
  name ∈ dom (packages_dict l) ↔ ∃ pkg, pkg ∈ l ∧ name = lower pkg.1.
Proof.
  unfold packages_dict. rewrite dom_foldl_insert, dom_empty_L.
  rewrite elem_of_union, elem_of_list_to_set, list_elem_of_fmap.
  split.
  - intros [H|(pkg & -> & Hin)]; [by apply not_elem_of_empty in H|eauto].
  - intros (pkg & Hin & ->). right. eauto.
Qed.

Lemma packages_dict_lowercased l : lowercased (packages_dict l).
Proof.
  intros name Hname. apply elem_of_packages_dict in Hname as (pkg & _ & ->).
  apply lower_idemp.
Qed.

Lemma packages_dict_last l (before after : list (string * string)) name version :
  l = (before ++ (name, version) :: after)%list →
  (∀ pkg, pkg ∈ after → lower pkg.1 ≠ lower name) →
  packages_dict l !! lower name = Some version.
Proof.
  intros -> Hafter. unfold packages_dict.
  rewrite foldl_app. cbn [foldl fst snd].
  rewrite lookup_foldl_insert_ne by done. apply lookup_insert_eq.
Qed.

End listing_facts.

Section print_facts.

Lemma for_each_print {A} (l : list A) (f : A → string) e st :
  for_each l (λ x, print (f x)) e st
  = (Return tt,
     {| stdin := stdin st; files := files st;
        stdout := stdout st ++ (f <$> l); effects := effects st |}).
Proof.
  revert st. induction l as [|x l IH]; intros st.
  - cbn. rewrite app_nil_r. by destruct st.
  - cbn [for_each]. unfold mbind, M_bind, bind, print. cbn [fmap list_fmap].
    rewrite IH. cbn. by rewrite <- app_assoc.
Qed.

Lemma print_bind {B} s (k : unit → M B) e st :
  (print s ≫= k) e st
  = k tt e {| stdin := stdin st; files := files st;
              stdout := stdout st ++ [s]; effects := effects st |}.
Proof. reflexivity. Qed.

Lemma for_each_print_bind {A B} (l : list A) (f : A → string)
    (k : unit → M B) e st :
  (for_each l (λ x, print (f x)) ≫= k) e st
  = k tt e {| stdin := stdin st; files := files st;
              stdout := stdout st ++ (f <$> l); effects := effects st |}.
Proof. unfold mbind, M_bind, bind. by rewrite for_each_print. Qed.

End print_facts.

Section backup_more.

Implicit Types (n v t : string).

Lemma app_newline_inj v v' : v +:+ NL = v' +:+ NL → v = v'.
Proof.
  revert v'. induction v as [|c v IH]; intros [|c' v']; rewrite ?string_app_cons.
  - done.
  - intros [= <- H]. by destruct v'.
  - intros [= -> H]. by destruct v.
  - intros [= -> H]. f_equal. by apply IH.
Qed.

Lemma plain_name_cut_inj n n' t t' :
  plain_name n = true → plain_name n' = true →
  n +:+ "==" +:+ t = n' +:+ "==" +:+ t' → n = n' ∧ t = t'.
Proof.
  revert n'. induction n as [|c n IH]; intros [|c' n'] Hn Hn';
    rewrite ?string_app_cons.
  - intros H. split; [done|]. by apply (inj (String.append "==")) in H.
  - unfold plain_name in Hn'. cbn [all_chars] in Hn'.
    apply andb_true_iff in Hn' as [Hc _].
    apply name_char_spec in Hc as (_ & Hc & _).
    intros [= H _]. done.
  - unfold plain_name in Hn. cbn [all_chars] in Hn.
    apply andb_true_iff in Hn as [Hc _].
    apply name_char_spec in Hc as (_ & Hc & _).
    intros [= H _]. done.
  - unfold plain_name in Hn, Hn'. cbn [all_chars] in Hn, Hn'.
    apply andb_true_iff in Hn as [_ Hn]. apply andb_true_iff in Hn' as [_ Hn'].
    intros [= -> H]. destruct (IH n' Hn Hn' H) as [-> ->]. done.
Qed.

Lemma backup_line_inj (a b : string * string) :
  readable a → readable b → backup_line a = backup_line b → a = b.
Proof.
  destruct a as [n v], b as [n' v']. intros [Hn _] [Hn' _].
  unfold backup_line. cbn [fst snd] in *. intros H.
  apply plain_name_cut_inj in H as [-> H]; [|done..].
  by apply app_newline_inj in H as ->.
Qed.

Lemma backup_lines_inj (l l' : list (string * string)) :
  Forall readable l → Forall readable l' →
  backup_line <$> l = backup_line <$> l' → l = l'.
Proof.
  intros Hl. revert l'. induction Hl as [|a l Ha _ IH]; intros l' Hl' Heq.
  - by destruct l'.
  - destruct Hl' as [|b l' Hb Hl']; [discriminate|].
    rewrite !fmap_cons in Heq. injection Heq as Hab Heq.
    f_equal; [by apply backup_line_inj|by apply IH].
Qed.

End backup_more.

(** X7. When the lister answers with a package list, [get_packages]
    invokes it once for the interpreter of the environment asked for,
    prints nothing and returns a mapping whose keys are the lowercased
    names of the list; of two entries whose names differ in case only
    the later one gives the version. *)
Theorem get_packages_lowercases_names
    (e : env) (venv_path : option string) (st : state)
    (packages : list (string * string)) :
  (∀ venv, venv_path = Some venv →
           path_exists e (interpreter e venv_path) = true) →
  lister e (interpreter e venv_path) = Listed packages →
  get_packages venv_path e st
  = (Return (packages_dict packages),
     {| stdin := stdin st; files := files st; stdout := stdout st;
        effects := effects st ++ [ListerInvoked (interpreter e venv_path)] |}) ∧
  (∀ name, name ∈ dom (packages_dict packages)
           ↔ ∃ pkg, pkg ∈ packages ∧ name = lower pkg.1) ∧
  (∀ name, name ∈ dom (packages_dict packages) → lower name = name) ∧
  (∀ (before after : list (string * string)) name version,
     packages = (before ++ (name, version) :: after)%list →
     (∀ pkg, pkg ∈ after → lower pkg.1 ≠ lower name) →
     packages_dict packages !! lower name = Some version).
Proof.
  intros Hexists Hlister. split; [|split; [|split]].
  - unfold get_packages, mbind, M_bind, bind, ask_env, log_effect, ret, raise.
    destruct venv_path as [venv|]; cbn [interpreter] in *; cbv beta iota zeta.
    + rewrite (Hexists venv eq_refl). cbn [negb]. cbv beta iota.
      by rewrite Hlister.
    + by rewrite Hlister.
  - apply elem_of_packages_dict.
  - apply packages_dict_lowercased.
  - intros before after name version. apply packages_dict_last.
Qed.

Lemma get_packages_lowercases_names_witness :
  packages_dict [("Flask", "2.0"); ("PyYAML", "6.0"); ("flask", "3.0")]
  !! lower "flask" = Some "3.0".
Proof.
  refine (proj2 (proj2 (proj2 (get_packages_lowercases_names
            {| script_dir := "/project"; executable := "/usr/bin/python3";
               path_exists := λ _, false;
               lister := λ _, Listed [("Flask", "2.0"); ("PyYAML", "6.0");
                                      ("flask", "3.0")];
               clock := "20240101_120000"; disk := λ _, Written;
               uninstaller := λ _, Uninstalled;
               reader := λ _ _, ReadOk |}
            None (initial [] ∅)
            [("Flask", "2.0"); ("PyYAML", "6.0"); ("flask", "3.0")] _ _)))
            [("Flask", "2.0"); ("PyYAML", "6.0")] [] "flask" "3.0" _ _).
  - intros venv Hvenv. discriminate Hvenv.
  - reflexivity.
  - reflexivity.
  - intros pkg Hin. by apply elem_of_nil in Hin.
Defined.



(** X9. The backup file determines the package mapping: two mappings
    with plain names and one-line versions that give the same backup
    text are equal, so no installed version is lost in the backup. *)
Theorem backup_determines_packages (g g' : gmap string string) :
  (∀ name version,
     g !! name = Some version →
     plain_name name = true ∧ one_line version = true) →
  (∀ name version,
     g' !! name = Some version →
     plain_name name = true ∧ one_line version = true) →
  backup_contents g = backup_contents g' → g = g'.
Proof.
  intros Hg Hg' Heq.
  pose proof (sorted_items_readable g Hg) as Hitems.
  pose proof (sorted_items_readable g' Hg') as Hitems'.
  apply (f_equal file_lines) in Heq. unfold backup_contents in Heq.
  rewrite !file_lines_backup in Heq by done.
  apply backup_lines_inj in Heq; [|done..].
  apply map_to_list_inj.
  rewrite <- (merge_sort_Permutation item_le (map_to_list g)).
  rewrite <- (merge_sort_Permutation item_le (map_to_list g')).
  by rewrite Heq.
Qed.

Lemma backup_determines_packages_witness :
  scenario_project = {["flask" := "2.0"]}.
Proof.
  apply (backup_determines_packages scenario_project {["flask" := "2.0"]}).
  - intros name version Hlookup. unfold scenario_project in Hlookup.
    apply lookup_singleton_Some in Hlookup as [<- <-]. split; reflexivity.
  - intros name version Hlookup.
    apply lookup_singleton_Some in Hlookup as [<- <-]. split; reflexivity.
  - reflexivity.
Defined.

(** X10. The dry run of [uninstall_packages] only prints: it reads no
    key, touches no file and invokes nothing.  For a non-empty set it
    prints three header lines, one line per package in sorted order and
    the total; for the empty set the single line that there is nothing
    to uninstall. *)
Theorem dry_run_only_prints (packages : gset string) (e : env) (st : state) :
  uninstall_packages packages true e st
  = (Return tt,
     {| stdin := stdin st; files := files st;
        stdout :=
          stdout st ++
          (if decide (packages = ∅) then ["No packages to uninstall."]
           else [NL +:+ rule; "DRY RUN - No packages will be uninstalled"; rule]
                ++ ((λ pkg, "  Would uninstall: " +:+ pkg) <$> sorted packages)
                ++ [NL +:+ "Total packages to uninstall: "
                    +:+ pretty (size packages)]);
        effects := effects st |}) ∧
  sorted packages ≡ₚ elements packages ∧
  Sorted String.le (sorted packages).
Proof.
  split; [|split].
  - unfold uninstall_packages. destruct (decide (packages = ∅)); [reflexivity|].
    rewrite !print_bind, for_each_print_bind.
    unfold print. cbn [stdin files stdout effects].
    rewrite <- !app_assoc. reflexivity.
  - apply merge_sort_Permutation.
  - apply Sorted_merge_sort. apply _.
Qed.

(** X11. The real removal of [uninstall_packages] invokes the
    uninstaller exactly when the set is not empty, once, for the
    elements of the set without repetition; it reads no key and touches
    no file; and its outcome is that of the uninstaller: a normal
    return, [sys.exit(1)] when the uninstaller reports an error. *)
Theorem uninstall_invokes_uninstaller_once
    (packages : gset string) (e : env) (st : state) :
  stdin (uninstall_packages packages false e st).2 = stdin st ∧
  files (uninstall_packages packages false e st).2 = files st ∧
  effects (uninstall_packages packages false e st).2
  = (effects st ++ (if decide (packages = ∅) then []
                    else [UninstallerInvoked (elements packages)]))%list ∧
  (uninstall_packages packages false e st).1
  = (if decide (packages = ∅) then Return tt
     else match uninstaller e (elements packages) with
          | Uninstalled => Return tt
          | UninstallFailed _ => Raise (SystemExit 1)
          | UninstallRaised err => Raise (Exception err)
          | UninstallInterrupted => Raise KeyboardInterrupt
          end) ∧
  NoDup (elements packages) ∧
  (∀ pkg, pkg ∈ elements packages ↔ pkg ∈ packages).
Proof.
  assert (Hrun : ∀ A B (a : A) (b : B), (a, b).2 = b) by done.
  unfold uninstall_packages. destruct (decide (packages = ∅)).
  - cbn. rewrite app_nil_r. repeat split; try done.
    + apply NoDup_elements.
    + apply elem_of_elements.
    + apply elem_of_elements.
  - unfold mbind, M_bind, bind, ask_env, log_effect, print, sys_exit, raise.
    cbn. destruct (uninstaller e (elements packages)); cbn;
      (repeat split; try done;
       [apply NoDup_elements|apply elem_of_elements|apply elem_of_elements]).
Qed.

(** ** The outline of a run *)

Section wp_exact.

Context (e : env).
Implicit Types (st : state) (keys : list keyboard) (fs : gmap string string).
Implicit Types (trace : list effect).

Lemma wp_get_packages_listed venv_path st keys fs trace Q :
  observed st keys fs trace →
  (∀ venv, venv_path = Some venv →
           path_exists e (interpreter e venv_path) = true) →
  (∀ st', observed st' keys fs
            (trace ++ [ListerInvoked (interpreter e venv_path)]) →
          Q (listed e (interpreter e venv_path)) st') →
  wp (get_packages venv_path) e st Q.
Proof.
  intros Hst Hexists HQ.
  eapply wp_get_packages_exact; [exact Hst|exact Hexists|].
  intros st' Hst'. specialize (HQ st' Hst'). unfold listed in HQ.
  by destruct (lister e (interpreter e venv_path)).
Qed.

Lemma wp_get_packages_missing venv st Q :
  path_exists e (interpreter e (Some venv)) = false →
  Q (Raise (Exception ("Virtual environment not found at " +:+ venv))) st →
  wp (get_packages (Some venv)) e st Q.
Proof.
  intros Hmissing HQ. unfold get_packages.
  apply wp_bind, wp_ask_env, wp_bind. cbv zeta.
  cbn [interpreter] in Hmissing. rewrite Hmissing. cbn [negb].
  by apply wp_raise.
Qed.

Lemma wp_load_manifest st keys fs trace Q :
  observed st keys fs trace →
  match manifest_error e fs with
  | None => Q (Return (manifest fs)) st
  | Some err => Q (Raise (Exception err)) st
  end →
  wp (load_requirements "requirements.txt") e st Q.
Proof.
  intros (_ & Hfs & _) HQ.
  unfold wp, load_requirements, manifest_error, manifest in *.
  rewrite Hfs. destruct (fs !! "requirements.txt") as [contents|]; [|done].
  by destruct (reader e "requirements.txt" contents).
Qed.

End wp_exact.

Ltac outline_next st H :=
  lazymatch goal with
  | |- wp (if negb (path_exists ?e ?p) then _ else _) _ _ _ =>
      destruct (path_exists e p) eqn:?Hvenv; cbn [negb]
  | |- wp (get_packages None) ?e _ _ =>
      eapply wp_get_packages_listed; [exact H|by intros ? [=]|];
      clear dependent st; intros st H; cbn [interpreter] in H |- *;
      unfold listed; destruct (lister e (executable e));
      cbv beta iota
  | |- wp (get_packages (Some ?v)) ?e _ _ =>
      destruct (path_exists e (interpreter e (Some v))) eqn:?Hpython;
      [eapply wp_get_packages_listed; [exact H|by intros ? [= <-]|];
       clear dependent st; intros st H;
       unfold listed; destruct (lister e (interpreter e (Some v)));
       cbv beta iota
      |eapply wp_get_packages_missing; [assumption|]]
  | |- wp (load_requirements _) ?e _ _ =>
      eapply wp_load_manifest; [exact H|];
      match type of H with
      | observed _ _ ?fs _ => destruct (manifest_error e fs)
      end;
      cbv beta iota
  | |- wp (create_backup _ _) _ _ _ =>
      let Hd := fresh "Hdisk" in
      eapply wp_create_backup; [exact H|..]; clear dependent st;
      [intros st H Hd|intros st ? H Hd|intros st H Hd
      |intros st ? ? H Hd|intros st ? H Hd]; rewrite Hd;
      cbv beta iota
  | |- wp (uninstall_packages _ false) _ _ _ =>
      let Hu := fresh "Hout" in
      eapply wp_uninstall; [eassumption|exact H|..]; clear dependent st;
      [intros st H Hu|intros st ? H Hu|intros st ? H Hu|intros st H Hu];
      rewrite Hu; cbv beta iota
  | |- wp (if ?c then _ else _) _ _ _ => destruct c; try contradiction
  | |- _ => wp_next st H
  end.

Lemma main_outline_correct e keys fs st :
  observed st keys fs [] →
  wp main e st (agrees (main_outline e keys fs)).
Proof.
  intros H. unfold main, main_outline, global_outline, removal_outline.
  cbv zeta.
  repeat outline_next st H.
  all: split; [reflexivity|exact H].
Qed.

Section outline_facts.

Context (e : env).
Implicit Types (keys : list keyboard) (fs : gmap string string).
Implicit Types (g v : gmap string string) (trace : list effect).

Lemma run_outline keys fs :
  run e keys fs
  = (status_of (final (main_outline e keys fs)),
     actions (main_outline e keys fs)).
Proof.
  rewrite run_eq.
  destruct (main_outline_correct e keys fs (initial keys fs)) as [Hr (_ & _ & Ht)];
    [done|].
  by rewrite Hr, Ht.
Qed.

Lemma main_outline_state keys fs :
  (main e (initial keys fs)).1 = final (main_outline e keys fs) ∧
  stdin (main e (initial keys fs)).2 = unread (main_outline e keys fs) ∧
  files (main e (initial keys fs)).2 = disk_after (main_outline e keys fs).
Proof.
  destruct (main_outline_correct e keys fs (initial keys fs)) as [Hr (Hk & Hf & _)];
    done.
Qed.

(** The [__main__] block only prints and sets the exit status. *)
Lemma script_state st :
  stdin (script e st).2 = stdin (main e st).2 ∧
  files (script e st).2 = files (main e st).2 ∧
  effects (script e st).2 = effects (main e st).2.
Proof.
  unfold script, try_except.
  destruct (main e st) as [[[]|[code| |msg]] st']; done.
Qed.

Lemma listed_lowercased python g : listed e python = Return g → lowercased g.
Proof.
  unfold listed. destruct (lister e python); intros [= <-].
  - apply packages_dict_lowercased.
  - intros name Hname. rewrite dom_empty_L in Hname.
    by apply not_elem_of_empty in Hname.
  - intros name Hname. rewrite dom_empty_L in Hname.
    by apply not_elem_of_empty in Hname.
Qed.

Lemma listed_raise python x :
  listed e python = Raise x → x = KeyboardInterrupt ∨ ∃ msg, x = Exception msg.
Proof. unfold listed. destruct (lister e python); intros [= <-]; eauto. Qed.


(** A lister that fails and one that lists nothing come to the same. *)
Lemma listed_with_empty_listing python msg p :
  lister e python = ListerFailed msg ∨ lister e python = ListerGarbled msg →
  listed (with_lister e python (Listed [])) p = listed e p.
Proof.
  intros Hfailed. unfold listed, with_lister. cbn [lister].
  destruct (decide (p = python)) as [->|]; [|done].
  by destruct Hfailed as [-> | ->].
Qed.

Lemma main_outline_with_empty_listing python msg keys fs :
  lister e python = ListerFailed msg ∨ lister e python = ListerGarbled msg →
  main_outline (with_lister e python (Listed [])) keys fs
  = main_outline e keys fs.
Proof.
  intros Hfailed. unfold main_outline, global_outline. cbv zeta.
  rewrite !(listed_with_empty_listing python msg) by done. reflexivity.
Qed.

Lemma script_outline_state keys fs :
  stdin (script e (initial keys fs)).2 = unread (main_outline e keys fs) ∧
  files (script e (initial keys fs)).2 = disk_after (main_outline e keys fs).
Proof.
  destruct (script_state (initial keys fs)) as (-> & -> & _).
  destruct (main_outline_state keys fs) as (_ & -> & ->). done.
Qed.

Lemma safe_to_remove_any_requirements g v (r r' : gset string) :
  lowercased g →
  (identify_safe_to_remove g v r).1 = (identify_safe_to_remove g v r').1.
Proof.
  intros Hg. apply set_eq. intros x.
  by rewrite !elem_of_safe_to_remove_lowercased.
Qed.

End outline_facts.

Ltac outline_cases :=
  unfold main_outline, global_outline, removal_outline in *; cbv zeta in *;
  repeat case_match; cbn [final unread disk_after actions app status_of] in *.

(** ** Claims about aborted and degraded runs *)




(** C9. When the lister exits with an error or prints something that is
    not JSON, [get_packages] prints one message and returns the empty
    mapping instead of raising, and the run continues as if that lister
    had listed no package at all: it ends with the same status and the
    same actions as in surroundings where the lister answers with an
    empty list.  When this happens to the listing of the global
    environment, the run goes on to read the manifest; if the manifest
    is absent or can be read, the run comes to its normal end, with
    nothing proposed for removal and exit status 0, and if reading it
    raises, that exception ends the run with status 1. *)
Theorem lister_failure_gives_empty_mapping (e : env) :
  (∀ venv_path st msg,
     (∀ venv, venv_path = Some venv →
              path_exists e (interpreter e venv_path) = true) →
     lister e (interpreter e venv_path) = ListerFailed msg ∨
     lister e (interpreter e venv_path) = ListerGarbled msg →
     ∃ line,
       get_packages venv_path e st
       = (Return ∅,
          {| stdin := stdin st; files := files st;
             stdout := stdout st ++ [line];
             effects := effects st
                        ++ [ListerInvoked (interpreter e venv_path)] |})) ∧
  (∀ keys fs msg,
     path_exists e (path_join (script_dir e) "venv") = true →
     path_exists e (interpreter e (Some (path_join (script_dir e) "venv")))
     = true →
     (∀ err, lister e (interpreter e (Some (path_join (script_dir e) "venv")))
             ≠ ListerRaised err) →
     lister e (interpreter e (Some (path_join (script_dir e) "venv")))
     ≠ ListerInterrupted →
     lister e (executable e) = ListerFailed msg ∨
     lister e (executable e) = ListerGarbled msg →
     (main e (initial keys fs)).1
     = match manifest_error e fs with
       | None => Return tt
       | Some err => Raise (Exception err)
       end ∧
     run e keys fs
     = (match manifest_error e fs with None => 0%Z | Some _ => 1%Z end,
        [ListerInvoked (interpreter e (Some (path_join (script_dir e) "venv")));
         ListerInvoked (executable e)])) ∧
  (∀ python msg keys fs,
     lister e python = ListerFailed msg ∨ lister e python = ListerGarbled msg →
     run e keys fs = run (with_lister e python (Listed [])) keys fs).
Proof.
  split; [|split].
  - intros venv_path st msg Hexists Hlister.
    unfold get_packages, mbind, M_bind, bind, ask_env, log_effect, print,
      ret, raise.
    destruct venv_path as [venv|]; cbn [interpreter] in *;
      cbv beta iota zeta.
    + rewrite (Hexists venv eq_refl). cbn [negb]. cbv beta iota.
      destruct Hlister as [-> | ->]; eexists; reflexivity.
    + destruct Hlister as [-> | ->]; eexists; reflexivity.
  - intros keys fs msg Hvenv Hpython Hraised Hinterrupted Hglobal.
    destruct (main_outline_state e keys fs) as (-> & _).
    rewrite run_outline.
    assert (listed e (executable e) = Return ∅) as Hempty.
    { unfold listed. by destruct Hglobal as [-> | ->]. }
    assert (∃ v, listed e (interpreter e (Some (path_join (script_dir e) "venv")))
                 = Return v) as [v Hv].
    { unfold listed.
      destruct (lister e (interpreter e (Some (path_join (script_dir e) "venv"))));
        [eauto..|by destruct (Hraised err)|done]. }
    unfold main_outline, global_outline, removal_outline. cbv zeta.
    rewrite Hvenv, Hpython, Hv, Hempty.
    destruct (manifest_error e fs); [done|].
    rewrite decide_True by apply nothing_to_remove_without_global. done.
  - intros python msg keys fs Hfailed.
    rewrite !run_outline.
    by rewrite (main_outline_with_empty_listing e python msg).
Qed.

Lemma lister_failure_gives_empty_mapping_witness :
  (∃ line,
     get_packages None
       {| script_dir := "/project"; executable := "/usr/bin/python3";
          path_exists := λ _, true;
          lister := λ python,
            if decide (python = "/usr/bin/python3")
            then ListerFailed "No module named pip"
            else Listed [("flask", "2.0")];
          clock := "20240101_120000"; disk := λ _, Written;
          uninstaller := λ _, Uninstalled;
          reader := λ _ _, ReadOk |}
       (initial [] ∅)
     = (Return ∅,
        {| stdin := []; files := ∅; stdout := [] ++ [line];
           effects := [] ++ [ListerInvoked "/usr/bin/python3"] |})) ∧
  run {| script_dir := "/project"; executable := "/usr/bin/python3";
         path_exists := λ _, true;
         lister := λ python,
           if decide (python = "/usr/bin/python3")
           then ListerFailed "No module named pip"
           else Listed [("flask", "2.0")];
         clock := "20240101_120000"; disk := λ _, Written;
         uninstaller := λ _, Uninstalled;
         reader := λ _ _, ReadOk |}
      [Typed "y"; Typed "yes"] scenario_files
  = (0%Z, [ListerInvoked "/project/venv/Scripts/python.exe";
           ListerInvoked "/usr/bin/python3"]).
Proof.
  split.
  - apply (proj1 (lister_failure_gives_empty_mapping
                    {| script_dir := "/project"; executable := "/usr/bin/python3";
                       path_exists := λ _, true;
                       lister := λ python,
                         if decide (python = "/usr/bin/python3")
                         then ListerFailed "No module named pip"
                         else Listed [("flask", "2.0")];
                       clock := "20240101_120000"; disk := λ _, Written;
                       uninstaller := λ _, Uninstalled;
                       reader := λ _ _, ReadOk |})
             None (initial [] ∅) "No module named pip").
    + intros venv Hvenv. discriminate Hvenv.
    + left. reflexivity.
  - refine (proj2 (proj1 (proj2 (lister_failure_gives_empty_mapping
              {| script_dir := "/project"; executable := "/usr/bin/python3";
                 path_exists := λ _, true;
                 lister := λ python,
                   if decide (python = "/usr/bin/python3")
                   then ListerFailed "No module named pip"
                   else Listed [("flask", "2.0")];
                 clock := "20240101_120000"; disk := λ _, Written;
                 uninstaller := λ _, Uninstalled;
                 reader := λ _ _, ReadOk |}))
              [Typed "y"; Typed "yes"] scenario_files "No module named pip"
              _ _ _ _ _)).
    + reflexivity.
    + reflexivity.
    + intros err. vm_compute. discriminate.
    + vm_compute. discriminate.
    + left. reflexivity.
Defined.

(** ** Further properties of the main flow *)

(** X12. Whatever the surroundings and the keys typed, a run invokes
    the uninstaller at most once, and then for exactly the packages that
    both listings name and that are not protected: the elements of the
    removal set of the classification of what the two listers returned.
    The declared dependencies have no part in it. *)
Theorem uninstalls_exactly_the_removal_set
    (e : env) (keys : list keyboard) (fs : gmap string string)
    (packages : list string) :
  UninstallerInvoked packages ∈ (run e keys fs).2 →
  ∃ g v,
    listed e (executable e) = Return g ∧
    listed e (project_python e) = Return v ∧
    packages = elements (identify_safe_to_remove g v (manifest fs)).1 ∧
    (∀ pkg, pkg ∈ packages ↔ pkg ∈ dom g ∧ pkg ∈ dom v ∧ ¬ protected pkg) ∧
    uninstalls (run e keys fs).2 = [packages].
Proof.
  rewrite run_outline. cbn [snd]. unfold project_python. intros Hin.
  outline_cases; elem_split Hin; try discriminate Hin.
  all: injection Hin as ->.
  all: try match goal with
           | Hne : (identify_safe_to_remove _ ∅ _).1 ≠ ∅ |- _ =>
               destruct Hne; apply nothing_to_remove_without_venv
           end.
  all: eexists _, _; split; [reflexivity|]; split; [reflexivity|];
    split; [reflexivity|]; split; [|reflexivity].
  all: intros pkg; rewrite elem_of_elements;
    apply elem_of_safe_to_remove_lowercased;
    eapply listed_lowercased; eassumption.
Qed.

Lemma uninstalls_exactly_the_removal_set_witness :
  uninstalls (run (scenario_env Written Uninstalled)
                [Typed "y"; Typed "yes"] scenario_files).2 = [["flask"]].
Proof.
  destruct (uninstalls_exactly_the_removal_set
              (scenario_env Written Uninstalled)
              [Typed "y"; Typed "yes"] scenario_files ["flask"])
    as (g & v & _ & _ & _ & _ & Honce).
  - vm_compute. do 5 apply list_elem_of_further. apply list_elem_of_here.
  - exact Honce.
Defined.

(** X13. The exit status of a run is 0 or 1; and once the uninstaller
    has been invoked, the status tells how it ended: 0 when the packages
    were uninstalled (or the user interrupted it), 1 when it reported an
    error. *)
Theorem exit_status_reflects_uninstaller
    (e : env) (keys : list keyboard) (fs : gmap string string) :
  ((run e keys fs).1 = 0%Z ∨ (run e keys fs).1 = 1%Z) ∧
  (∀ packages,
     UninstallerInvoked packages ∈ (run e keys fs).2 →
     (run e keys fs).1 = uninstall_status (uninstaller e packages)).
Proof.
  rewrite run_outline. cbn [fst snd]. split.
  - outline_cases;
      repeat match goal with
             | H : listed _ _ = Raise _ |- _ =>
                 apply listed_raise in H as [-> | [? ->]]
             end; cbn [status_of]; auto.
  - intros packages Hin.
    outline_cases; elem_split Hin; try discriminate Hin.
    all: injection Hin as ->.
    all: match goal with
         | Hout : uninstaller _ _ = _ |- _ => by rewrite Hout
         end.
Qed.

Lemma exit_status_reflects_uninstaller_witness :
  (run (scenario_env Written (UninstallFailed "exit status 2"))
     [Typed "y"; Typed "yes"] scenario_files).1 = 1%Z.
Proof.
  apply (proj2 (exit_status_reflects_uninstaller
                  (scenario_env Written (UninstallFailed "exit status 2"))
                  [Typed "y"; Typed "yes"] scenario_files) ["flask"]).
  vm_compute. do 5 apply list_elem_of_further. apply list_elem_of_here.
Defined.

Section outline_more.

Context (e : env).
Implicit Types (keys : list keyboard) (fs : gmap string string).
Implicit Types (g v : gmap string string) (trace : list effect).

Lemma backup_path_not_manifest : backup_path e ≠ "requirements.txt".
Proof. discriminate. Qed.

(** The declared dependencies do not steer the part of a run that
    follows the classification. *)
Lemma removal_outline_any_files g v keys fs fs' trace :
  lowercased g →
  final (removal_outline e g v keys fs trace)
  = final (removal_outline e g v keys fs' trace) ∧
  unread (removal_outline e g v keys fs trace)
  = unread (removal_outline e g v keys fs' trace) ∧
  actions (removal_outline e g v keys fs trace)
  = actions (removal_outline e g v keys fs' trace).
Proof.
  intros Hg. unfold removal_outline.
  rewrite (safe_to_remove_any_requirements g v (manifest fs) (manifest fs') Hg).
  cbv zeta. repeat case_match; done.
Qed.

Lemma global_outline_any_files v keys fs fs' trace :
  manifest_error e fs = None → manifest_error e fs' = None →
  final (global_outline e v keys fs trace)
  = final (global_outline e v keys fs' trace) ∧
  unread (global_outline e v keys fs trace)
  = unread (global_outline e v keys fs' trace) ∧
  actions (global_outline e v keys fs trace)
  = actions (global_outline e v keys fs' trace).
Proof.
  intros Hfs Hfs'. unfold global_outline. cbv zeta. rewrite Hfs, Hfs'.
  destruct (listed e (executable e)) as [g|x] eqn:Hg; [|done].
  apply removal_outline_any_files. by eapply listed_lowercased.
Qed.

Lemma main_outline_any_files keys fs fs' :
  manifest_error e fs = None → manifest_error e fs' = None →
  final (main_outline e keys fs) = final (main_outline e keys fs') ∧
  unread (main_outline e keys fs) = unread (main_outline e keys fs') ∧
  actions (main_outline e keys fs) = actions (main_outline e keys fs').
Proof.
  intros Hfs Hfs'. unfold main_outline. cbv zeta.
  repeat case_match; try done; by apply global_outline_any_files.
Qed.

End outline_more.

(** X14. A run changes no file but the backup file, whose name is not
    that of the manifest.  Every backup written holds the backup text of
    what the global lister returned.  A run that completes no backup
    leaves all files as they were, unless the write failed or was
    interrupted after the backup file had been opened: then that file
    holds the beginning of the backup text, as far as it was written. *)
Theorem only_the_backup_file_is_written
    (e : env) (keys : list keyboard) (fs : gmap string string) :
  (∀ path, path ≠ backup_path e →
           files (script e (initial keys fs)).2 !! path = fs !! path) ∧
  backup_path e ≠ "requirements.txt" ∧
  (∀ path contents,
     BackupWritten path contents ∈ (run e keys fs).2 →
     path = backup_path e ∧
     files (script e (initial keys fs)).2 !! path = Some contents ∧
     ∃ g, listed e (executable e) = Return g ∧ contents = backup_contents g) ∧
  ((∀ path contents, BackupWritten path contents ∉ (run e keys fs).2) →
   files (script e (initial keys fs)).2 = fs ∨
   ∃ g written,
     listed e (executable e) = Return g ∧
     (disk e (backup_path e) = WriteCut written ∨
      ∃ err, disk e (backup_path e) = WriteBroken written err) ∧
     files (script e (initial keys fs)).2
     = <[backup_path e := first_chars written (backup_contents g)]> fs).
Proof.
  destruct (script_outline_state e keys fs) as [_ ->].
  rewrite run_outline. cbn [snd]. unfold backup_path.
  split; [|split; [discriminate|split]].
  - intros path Hpath. outline_cases; try done; by apply lookup_insert_ne.
  - intros path contents Hin.
    outline_cases; elem_split Hin; try discriminate Hin.
    all: injection Hin as -> ->.
    all: split; [reflexivity|]; split; [apply lookup_insert_eq|]; eauto.
  - intros Hnone. outline_cases.
    all: first
      [ left; reflexivity
      | exfalso; eapply Hnone; find_elem
      | right; eexists _, _; split; [reflexivity|];
        split; [|reflexivity];
        first [left; reflexivity | right; eexists; reflexivity] ].
Qed.

Lemma only_the_backup_file_is_written_witness :
  files (script (scenario_env Written Uninstalled)
           (initial [Typed "y"; Typed "no"] scenario_files)).2
  !! "requirements.txt"
  = scenario_files !! "requirements.txt" ∧
  (files (script (scenario_env (WriteCut 9) Uninstalled)
            (initial [Typed "y"; Typed "yes"] scenario_files)).2
   = scenario_files ∨
   ∃ g written,
     listed (scenario_env (WriteCut 9) Uninstalled)
       (executable (scenario_env (WriteCut 9) Uninstalled)) = Return g ∧
     (disk (scenario_env (WriteCut 9) Uninstalled)
        (backup_path (scenario_env (WriteCut 9) Uninstalled))
      = WriteCut written ∨
      ∃ err,
        disk (scenario_env (WriteCut 9) Uninstalled)
          (backup_path (scenario_env (WriteCut 9) Uninstalled))
        = WriteBroken written err) ∧
     files (script (scenario_env (WriteCut 9) Uninstalled)
              (initial [Typed "y"; Typed "yes"] scenario_files)).2
     = <[backup_path (scenario_env (WriteCut 9) Uninstalled)
         := first_chars written (backup_contents g)]> scenario_files).
Proof.
  split.
  - apply (proj1 (only_the_backup_file_is_written
                    (scenario_env Written Uninstalled)
                    [Typed "y"; Typed "no"] scenario_files)).
    discriminate.
  - apply (proj2 (proj2 (proj2 (only_the_backup_file_is_written
                                  (scenario_env (WriteCut 9) Uninstalled)
                                  [Typed "y"; Typed "yes"] scenario_files)))).
    intros path contents Hin.
    assert ((run (scenario_env (WriteCut 9) Uninstalled)
               [Typed "y"; Typed "yes"] scenario_files).2
            = [ListerInvoked "/project/venv/Scripts/python.exe";
               ListerInvoked "/usr/bin/python3";
               Asked backup_prompt "y"]) as Htrace by (vm_compute; reflexivity).
    rewrite Htrace in Hin. elem_split Hin; discriminate Hin.
Defined.

(** X15. When the project environment does not exist, a run never
    gets to a backup or a removal, whatever the user answers: it asks
    whether to continue and at most lists the global environment, and it
    changes no file.  An answer other than [y] ends it at once with
    status 0; after a [y] and a listing that returns, it reads the
    manifest and ends without reading a further key, with status 0 if
    the manifest is absent or can be read and with status 1 if reading
    it raises. *)
Theorem missing_environment_removes_nothing
    (e : env) (keys : list keyboard) (fs : gmap string string) :
  path_exists e (path_join (script_dir e) "venv") = false →
  (∀ x, x ∈ (run e keys fs).2 →
        x = ListerInvoked (executable e) ∨
        ∃ answer, x = Asked continue_prompt answer) ∧
  files (script e (initial keys fs)).2 = fs ∧
  (∀ answer rest,
     keys = Typed answer :: rest → lower answer ≠ "y" →
     run e keys fs = (0%Z, [Asked continue_prompt answer])) ∧
  (∀ answer rest g,
     keys = Typed answer :: rest → lower answer = "y" →
     listed e (executable e) = Return g →
     run e keys fs
     = (match manifest_error e fs with None => 0%Z | Some _ => 1%Z end,
        [Asked continue_prompt answer; ListerInvoked (executable e)]) ∧
     stdin (script e (initial keys fs)).2 = rest).
Proof.
  intros Hvenv.
  destruct (script_outline_state e keys fs) as [-> ->].
  rewrite run_outline. cbn [fst snd].
  unfold main_outline, global_outline, removal_outline. cbv zeta.
  rewrite Hvenv.
  split; [|split; [|split]].
  - intros x Hin.
    repeat case_match; cbn [actions app] in Hin;
      try match goal with
          | Hne : (identify_safe_to_remove _ ∅ _).1 ≠ ∅ |- _ =>
              by destruct Hne; apply nothing_to_remove_without_venv
          end;
      elem_split Hin; subst; eauto.
  - repeat case_match; try done;
      match goal with
      | Hne : (identify_safe_to_remove _ ∅ _).1 ≠ ∅ |- _ =>
          by destruct Hne; apply nothing_to_remove_without_venv
      end.
  - intros answer rest -> Hno.
    destruct (decide (lower answer ≠ "y")); done.
  - intros answer rest g -> Hyes Hg.
    destruct (decide (lower answer ≠ "y")); [done|].
    rewrite Hg. destruct (manifest_error e fs); [done|].
    destruct (decide ((identify_safe_to_remove g ∅ (manifest fs)).1 = ∅))
      as [|Hne]; [done|].
    destruct Hne. apply nothing_to_remove_without_venv.
Qed.

Lemma missing_environment_removes_nothing_witness :
  run {| script_dir := "/project"; executable := "/usr/bin/python3";
         path_exists := λ _, false;
         lister := λ _, Listed [("flask", "2.0")];
         clock := "20240101_120000"; disk := λ _, Written;
         uninstaller := λ _, Uninstalled;
               reader := λ _ _, ReadOk |}
      [Typed "n"] scenario_files
  = (0%Z, [Asked continue_prompt "n"]).
Proof.
  refine (proj1 (proj2 (proj2 (missing_environment_removes_nothing
            {| script_dir := "/project"; executable := "/usr/bin/python3";
               path_exists := λ _, false;
               lister := λ _, Listed [("flask", "2.0")];
               clock := "20240101_120000"; disk := λ _, Written;
               uninstaller := λ _, Uninstalled;
               reader := λ _ _, ReadOk |}
            [Typed "n"] scenario_files _))) "n" [] _ _).
  - reflexivity.
  - reflexivity.
  - discriminate.
Defined.

(** X16. When the directory of the project environment exists but holds
    no [Scripts/python.exe], [get_packages] raises before it lists
    anything, and the run ends with status 1 without having invoked a
    lister, read a key or written a file. *)
Theorem environment_without_interpreter_fails
    (e : env) (keys : list keyboard) (fs : gmap string string) :
  path_exists e (path_join (script_dir e) "venv") = true →
  path_exists e (project_python e) = false →
  (main e (initial keys fs)).1
  = Raise (Exception ("Virtual environment not found at "
                      +:+ path_join (script_dir e) "venv")) ∧
  run e keys fs = (1%Z, []) ∧
  stdin (script e (initial keys fs)).2 = keys ∧
  files (script e (initial keys fs)).2 = fs.
Proof.
  unfold project_python. intros Hvenv Hpython.
  destruct (script_outline_state e keys fs) as [-> ->].
  destruct (main_outline_state e keys fs) as (-> & _).
  rewrite run_outline.
  unfold main_outline. cbv zeta. by rewrite Hvenv, Hpython.
Qed.

Lemma environment_without_interpreter_fails_witness :
  run {| script_dir := "/project"; executable := "/usr/bin/python3";
         path_exists := λ p, bool_decide (p = "/project/venv");
         lister := λ _, Listed [("flask", "2.0")];
         clock := "20240101_120000"; disk := λ _, Written;
         uninstaller := λ _, Uninstalled;
               reader := λ _ _, ReadOk |}
      [Typed "y"; Typed "yes"] scenario_files
  = (1%Z, []).
Proof.
  refine (proj1 (proj2 (environment_without_interpreter_fails
            {| script_dir := "/project"; executable := "/usr/bin/python3";
               path_exists := λ p, bool_decide (p = "/project/venv");
               lister := λ _, Listed [("flask", "2.0")];
               clock := "20240101_120000"; disk := λ _, Written;
               uninstaller := λ _, Uninstalled;
               reader := λ _ _, ReadOk |}
            [Typed "y"; Typed "yes"] scenario_files _ _))).
  - reflexivity.
  - reflexivity.
Defined.

(** X17. The complete run.  When both environments are listed, the
    manifest is absent or can be read, some package installed in both
    environments is not protected, the user answers [y] and then [yes]
    (in any case of letters) and the backup can be written,
    the run lists the project environment and the global one, asks,
    writes the backup of the global packages, asks again and invokes the
    uninstaller for the removal set; its status is that of the
    uninstaller, the backup file is on disk and the keys after the two
    answers are left unread. *)
Theorem confirmed_run_uninstalls
    (e : env) (first second : string) (rest : list keyboard)
    (fs : gmap string string) (g v : gmap string string) (pkg : string) :
  path_exists e (path_join (script_dir e) "venv") = true →
  path_exists e (project_python e) = true →
  listed e (project_python e) = Return v →
  listed e (executable e) = Return g →
  manifest_error e fs = None →
  pkg ∈ dom g → pkg ∈ dom v → ¬ protected pkg →
  lower first = "y" → lower second = "yes" →
  disk e (backup_path e) = Written →
  run e (Typed first :: Typed second :: rest) fs
  = (uninstall_status
       (uninstaller e (elements (identify_safe_to_remove g v (manifest fs)).1)),
     [ListerInvoked (project_python e); ListerInvoked (executable e);
      Asked backup_prompt first;
      BackupWritten (backup_path e) (backup_contents g);
      Asked final_prompt second;
      UninstallerInvoked
        (elements (identify_safe_to_remove g v (manifest fs)).1)]) ∧
  pkg ∈ elements (identify_safe_to_remove g v (manifest fs)).1 ∧
  files (script e (initial (Typed first :: Typed second :: rest) fs)).2
  = <[backup_path e := backup_contents g]> fs ∧
  stdin (script e (initial (Typed first :: Typed second :: rest) fs)).2 = rest.
Proof.
  unfold project_python, backup_path.
  intros Hvenv Hpython Hv Hg Hfs Hpkg_g Hpkg_v Hpkg Hfirst Hsecond Hdisk.
  assert (Hsafe : pkg ∈ (identify_safe_to_remove g v (manifest fs)).1).
  { apply elem_of_safe_to_remove_lowercased; [|done].
    by eapply listed_lowercased. }
  destruct (script_outline_state e (Typed first :: Typed second :: rest) fs)
    as [-> ->].
  rewrite run_outline.
  unfold main_outline, global_outline, removal_outline. cbv zeta.
  rewrite Hvenv, Hpython, Hv, Hg, Hfs, Hdisk.
  destruct (decide ((identify_safe_to_remove g v (manifest fs)).1 = ∅))
    as [Hempty|_].
  { rewrite Hempty in Hsafe. by apply not_elem_of_empty in Hsafe. }
  destruct (decide (lower first ≠ "y")); [done|].
  destruct (decide (lower second ≠ "yes")); [done|].
  split; [|split; [by apply elem_of_elements|]].
  - by destruct (uninstaller e _).
  - by destruct (uninstaller e _).
Qed.

Lemma confirmed_run_uninstalls_witness :
  run (scenario_env Written Uninstalled) [Typed "Y"; Typed "Yes"] scenario_files
  = (uninstall_status
       (uninstaller (scenario_env Written Uninstalled)
          (elements (identify_safe_to_remove
                       (packages_dict [("flask", "2.0"); ("pip", "23.0");
                                       ("black", "24.0")])
                       (packages_dict [("flask", "2.0")])
                       (manifest scenario_files)).1)),
     [ListerInvoked (project_python (scenario_env Written Uninstalled));
      ListerInvoked (executable (scenario_env Written Uninstalled));
      Asked backup_prompt "Y";
      BackupWritten (backup_path (scenario_env Written Uninstalled))
        (backup_contents (packages_dict [("flask", "2.0"); ("pip", "23.0");
                                         ("black", "24.0")]));
      Asked final_prompt "Yes";
      UninstallerInvoked
        (elements (identify_safe_to_remove
                     (packages_dict [("flask", "2.0"); ("pip", "23.0");
                                     ("black", "24.0")])
                     (packages_dict [("flask", "2.0")])
                     (manifest scenario_files)).1)]).
Proof.
  refine (proj1 (confirmed_run_uninstalls
            (scenario_env Written Uninstalled) "Y" "Yes" [] scenario_files
            (packages_dict [("flask", "2.0"); ("pip", "23.0"); ("black", "24.0")])
            (packages_dict [("flask", "2.0")]) "flask"
            _ _ _ _ _ _ _ _ _ _ _)).
  - reflexivity.
  - reflexivity.
  - reflexivity.
  - reflexivity.
  - reflexivity.
  - vm_compute. reflexivity.
  - vm_compute. reflexivity.
  - vm_compute. intros [H|H]; discriminate H.
  - reflexivity.
  - reflexivity.
  - reflexivity.
Defined.

(** X18. When both environments are listed, the manifest is absent or
    can be read and every package installed in both environments is
    protected, there is nothing to remove: the run ends with status 0
    after the two listings, asks nothing, reads no key and writes no
    file. *)
Theorem nothing_to_remove_ends_quietly
    (e : env) (keys : list keyboard) (fs : gmap string string)
    (g v : gmap string string) :
  path_exists e (path_join (script_dir e) "venv") = true →
  path_exists e (project_python e) = true →
  listed e (project_python e) = Return v →
  listed e (executable e) = Return g →
  manifest_error e fs = None →
  (∀ pkg, pkg ∈ dom g → pkg ∈ dom v → protected pkg) →
  run e keys fs
  = (0%Z, [ListerInvoked (project_python e); ListerInvoked (executable e)]) ∧
  stdin (script e (initial keys fs)).2 = keys ∧
  files (script e (initial keys fs)).2 = fs.
Proof.
  unfold project_python. intros Hvenv Hpython Hv Hg Hfs Hall.
  assert (Hsafe : (identify_safe_to_remove g v (manifest fs)).1 = ∅).
  { apply set_eq. intros pkg.
    rewrite elem_of_safe_to_remove_lowercased by by eapply listed_lowercased.
    split; [|by intros H%not_elem_of_empty].
    intros (Hin_g & Hin_v & Hpkg). destruct Hpkg. by apply Hall. }
  destruct (script_outline_state e keys fs) as [-> ->].
  rewrite run_outline.
  unfold main_outline, global_outline, removal_outline. cbv zeta.
  rewrite Hvenv, Hpython, Hv, Hg, Hfs.
  by destruct (decide ((identify_safe_to_remove g v (manifest fs)).1 = ∅)).
Qed.

Lemma nothing_to_remove_ends_quietly_witness :
  run {| script_dir := "/project"; executable := "/usr/bin/python3";
         path_exists := λ _, true;
         lister := λ _, Listed [("pip", "23.0"); ("black", "24.0")];
         clock := "20240101_120000"; disk := λ _, Written;
         uninstaller := λ _, Uninstalled;
               reader := λ _ _, ReadOk |}
      [Typed "y"; Typed "yes"] scenario_files
  = (0%Z, [ListerInvoked "/project/venv/Scripts/python.exe";
           ListerInvoked "/usr/bin/python3"]).
Proof.
  refine (proj1 (nothing_to_remove_ends_quietly
            {| script_dir := "/project"; executable := "/usr/bin/python3";
               path_exists := λ _, true;
               lister := λ _, Listed [("pip", "23.0"); ("black", "24.0")];
               clock := "20240101_120000"; disk := λ _, Written;
               uninstaller := λ _, Uninstalled;
               reader := λ _ _, ReadOk |}
            [Typed "y"; Typed "yes"] scenario_files
            (packages_dict [("pip", "23.0"); ("black", "24.0")])
            (packages_dict [("pip", "23.0"); ("black", "24.0")])
            _ _ _ _ _ _)).
  - reflexivity.
  - reflexivity.
  - reflexivity.
  - reflexivity.
  - reflexivity.
  - intros pkg Hpkg _.
    apply elem_of_packages_dict in Hpkg as (item & Hitem & ->).
    elem_split Hitem; subst item; [left|right]; vm_compute; reflexivity.
Defined.

(** X19. What a manifest that can be read holds does not steer a run:
    with the names of the global packages lowercased by
    [get_packages], two runs in the same surroundings and with the same
    keys typed, each with a manifest that is absent or can be read, end
    with the same status, take the same external actions and read the
    same keys, whatever the manifests declare. *)
Theorem manifest_does_not_steer_the_run
    (e : env) (keys : list keyboard) (fs fs' : gmap string string) :
  manifest_error e fs = None →
  manifest_error e fs' = None →
  run e keys fs = run e keys fs' ∧
  stdin (script e (initial keys fs)).2 = stdin (script e (initial keys fs')).2.
Proof.
  intros Hfs Hfs'.
  destruct (script_outline_state e keys fs) as [-> _].
  destruct (script_outline_state e keys fs') as [-> _].
  rewrite !run_outline.
  destruct (main_outline_any_files e keys fs fs' Hfs Hfs') as (-> & -> & ->).
  done.
Qed.

Lemma manifest_does_not_steer_the_run_witness :
  run (scenario_env Written Uninstalled) [Typed "y"; Typed "yes"] scenario_files
  = run (scenario_env Written Uninstalled) [Typed "y"; Typed "yes"]
      {[ "requirements.txt" := "numpy" +:+ NL ]}.
Proof.
  refine (proj1 (manifest_does_not_steer_the_run
            (scenario_env Written Uninstalled) [Typed "y"; Typed "yes"]
            scenario_files {[ "requirements.txt" := "numpy" +:+ NL ]} _ _)).
  - reflexivity.
  - reflexivity.
Defined.

(** ** Properties of the chat page *)

Section chat_facts.

Import Chat.

Implicit Types (s : session) (history added : list message).

Lemma display_loop s history :
  foldl (λ s message, show (ChatMessage (role message) (content message)) s)
        s history
  = {| messages := messages s;
       page := page s ++ ((λ m, ChatMessage (role m) (content m)) <$> history) |}.
Proof.
  revert s. induction history as [|m history IH]; intros s; cbn [foldl].
  - rewrite fmap_nil, app_nil_r. by destruct s.
  - rewrite IH. unfold show. cbn. by rewrite <- app_assoc.
Qed.

Lemma shown_app (ws ws' : list widget) : shown (ws ++ ws') = (shown ws ++ shown ws')%list.
Proof. apply omap_app. Qed.

Lemma shown_rendered history :
  shown ((λ m, ChatMessage (role m) (content m)) <$> history) = history.
Proof.
  induction history as [|[name body] history IH]; [reflexivity|].
  cbn. unfold shown in IH. by rewrite IH.
Qed.

End chat_facts.

(** X20. [initialize_chat_history] gives the session a history when it
    has none and changes nothing otherwise, so that calling it again has
    no effect; without it [display_chat_history] raises
    [AttributeError], after it [display_chat_history] shows every
    message of the history in order, changes nothing else and does not
    fail. *)
Theorem history_is_initialized_once (s : Chat.session) :
  Chat.initialize_chat_history (Chat.initialize_chat_history s)
  = Chat.initialize_chat_history s ∧
  (∀ history, Chat.messages s = Some history →
              Chat.initialize_chat_history s = s) ∧
  (Chat.messages s = None →
   Chat.display_chat_history s = (Chat.Failed (Chat.AttributeError "messages"), s) ∧
   Chat.messages (Chat.initialize_chat_history s) = Some [Chat.greeting]) ∧
  (∃ history,
     Chat.messages (Chat.initialize_chat_history s) = Some history ∧
     Chat.display_chat_history (Chat.initialize_chat_history s)
     = (Chat.Done,
        {| Chat.messages := Some history;
           Chat.page :=
             (Chat.page s
              ++ ((λ m, Chat.ChatMessage (Chat.role m) (Chat.content m))
                  <$> history))%list |})).
Proof.
  unfold Chat.initialize_chat_history, Chat.display_chat_history.
  destruct s as [[history|] page]; cbn [Chat.messages Chat.page].
  - split; [done|]. split; [done|]. split; [done|].
    exists history. split; [done|]. by rewrite display_loop.
  - split; [done|]. split; [done|]. split; [done|].
    exists [Chat.greeting]. split; [done|]. by rewrite display_loop.
Qed.

Lemma history_is_initialized_once_witness :
  Chat.display_chat_history {| Chat.messages := None; Chat.page := [] |}
  = (Chat.Failed (Chat.AttributeError "messages"),
     {| Chat.messages := None; Chat.page := [] |}).
Proof.
  refine (proj1 (proj1 (proj2 (proj2 (history_is_initialized_once
            {| Chat.messages := None; Chat.page := [] |}))) _)).
  reflexivity.
Defined.

(** X21. [handle_user_input] only ever appends to the history: after
    the call the history is the old one followed by nothing when no text
    was submitted, by the user's message when the API key is empty, and
    by the user's message and a reply otherwise.  An exception of the
    answering function that is an [Exception] does not escape: the reply
    recorded is the apology that quotes it.  The call fails only when
    the answering function raises something else, and then the user's
    message has been recorded without a reply. *)
Theorem input_only_appends_to_history
    {Chain : Type} (openai_api_key : string)
    (query_graph_func : Chain → string → result string) (chain : Chain)
    (submitted : option string) (s : Chat.session) (history : list Chat.message) :
  Chat.messages s = Some history →
  ∃ added,
    Chat.messages
      (Chat.handle_user_input openai_api_key query_graph_func chain submitted s).2
    = Some (history ++ added)%list ∧
    match Chat.question submitted with
    | None =>
        added = [] ∧
        (Chat.handle_user_input openai_api_key query_graph_func chain
           submitted s).1 = Chat.Done
    | Some prompt =>
        if decide (openai_api_key = "") then
          added = [Chat.Message "user" prompt] ∧
          (Chat.handle_user_input openai_api_key query_graph_func chain
             submitted s).1 = Chat.Done
        else
          match Chat.reply (query_graph_func chain prompt) with
          | Some response =>
              added = [Chat.Message "user" prompt;
                       Chat.Message "assistant" response] ∧
              (Chat.handle_user_input openai_api_key query_graph_func chain
                 submitted s).1 = Chat.Done
          | None =>
              added = [Chat.Message "user" prompt] ∧
              ∃ x, query_graph_func chain prompt = Raise x ∧
                   (Chat.handle_user_input openai_api_key query_graph_func chain
                      submitted s).1 = Chat.Failed (Chat.Escaped x)
          end
    end.
Proof.
  intros Hs. unfold Chat.handle_user_input, Chat.question, Chat.reply.
  cbv zeta. cbn [Chat.show Chat.messages Chat.page]. rewrite Hs.
  destruct submitted as [prompt|]; [|exists []; by rewrite app_nil_r].
  destruct (decide (prompt ≠ "")); [|exists []; by rewrite app_nil_r].
  destruct (decide (openai_api_key = "")) as [->|Hkey].
  - destruct (decide ("" ≠ "")); [done|].
    exists [Chat.Message "user" prompt]. done.
  - destruct (decide (openai_api_key ≠ "")); [|done].
    destruct (query_graph_func chain prompt) as [response|[code| |msg]].
    + exists [Chat.Message "user" prompt; Chat.Message "assistant" response].
      cbn. by rewrite <- app_assoc.
    + exists [Chat.Message "user" prompt]. cbn. eauto.
    + exists [Chat.Message "user" prompt]. cbn. eauto.
    + exists [Chat.Message "user" prompt;
              Chat.Message "assistant" ("Sorry, I encountered an error: " +:+ msg)].
      cbn. by rewrite <- app_assoc.
Qed.

Lemma input_only_appends_to_history_witness :
  ∃ added,
    Chat.messages
      (Chat.handle_user_input "sk-key" Chat.guery_graph
         (λ _, Return (∅ : gmap string string)) (Some "Who won in 1966?")
         {| Chat.messages := Some [Chat.greeting]; Chat.page := [] |}).2
    = Some ([Chat.greeting] ++ added)%list ∧
    added = [Chat.Message "user" "Who won in 1966?";
             Chat.Message "assistant" "Sorry, I encountered an error: 'result'"] ∧
    (Chat.handle_user_input "sk-key" Chat.guery_graph
       (λ _, Return (∅ : gmap string string)) (Some "Who won in 1966?")
       {| Chat.messages := Some [Chat.greeting]; Chat.page := [] |}).1
    = Chat.Done.
Proof.
  destruct (input_only_appends_to_history "sk-key" Chat.guery_graph
              (λ _, Return (∅ : gmap string string)) (Some "Who won in 1966?")
              {| Chat.messages := Some [Chat.greeting]; Chat.page := [] |}
              [Chat.greeting])
    as (added & Hhistory & Hadded).
  - reflexivity.
  - exists added. split; [exact Hhistory|exact Hadded].
Defined.

(** X22. When the three functions are called one after the other on
    an empty page, [initialize_chat_history], then
    [display_chat_history], then [handle_user_input], the display does
    not fail, and the chat messages put on the page are, in order,
    exactly the messages of the history as it is stored after the last
    call, whether that call fails or not; and it never fails for a
    missing history. *)
Theorem page_shows_the_stored_history
    {Chain : Type} (openai_api_key : string)
    (query_graph_func : Chain → string → result string) (chain : Chain)
    (submitted : option string) (stored : option (list Chat.message)) :
  ∃ displayed,
    Chat.display_chat_history
      (Chat.initialize_chat_history
         {| Chat.messages := stored; Chat.page := [] |})
    = (Chat.Done, displayed) ∧
    Chat.messages
      (Chat.handle_user_input openai_api_key query_graph_func chain submitted
         displayed).2
    = Some (Chat.shown
              (Chat.page
                 (Chat.handle_user_input openai_api_key query_graph_func chain
                    submitted displayed).2)) ∧
    (∀ name,
       (Chat.handle_user_input openai_api_key query_graph_func chain submitted
          displayed).1
       ≠ Chat.Failed (Chat.AttributeError name)).
Proof.
  unfold Chat.initialize_chat_history, Chat.display_chat_history.
  cbn [Chat.messages Chat.page].
  assert (Hrun : ∀ history,
    let r := Chat.handle_user_input openai_api_key query_graph_func chain submitted
               {| Chat.messages := Some history;
                  Chat.page := (λ m, Chat.ChatMessage (Chat.role m) (Chat.content m))
                               <$> history |} in
    Chat.messages r.2 = Some (Chat.shown (Chat.page r.2)) ∧
    ∀ name, r.1 ≠ Chat.Failed (Chat.AttributeError name)).
  { intros history. unfold Chat.handle_user_input, Chat.show. cbv zeta.
    cbn [Chat.messages Chat.page].
    destruct submitted as [prompt|]; [destruct (decide (prompt ≠ ""))|];
      [destruct (decide (openai_api_key ≠ ""));
       [destruct (query_graph_func chain prompt) as [response|[code| |msg]]|]
      |..];
      cbn [fst snd Chat.messages Chat.page];
      rewrite !shown_app, shown_rendered; cbn;
      rewrite ?app_nil_r, <- ?app_assoc; done. }
  destruct stored as [history|]; cbn [Chat.messages Chat.page];
    rewrite display_loop; cbn [Chat.messages Chat.page app];
    (eexists; split; [reflexivity|apply Hrun]).
Qed.

(** X23. The three functions keep the history a conversation.  Called
    one after the other on a session with no history, or with the
    greeting followed by questions and replies in turn,
    [initialize_chat_history] and [display_chat_history] leave that
    conversation as the history, and [handle_user_input], with an API
    key and an answering function that raises nothing but [Exception]s,
    does not fail and extends the conversation by the submitted question
    and its reply when a text was submitted. *)
Theorem conversation_alternates
    {Chain : Type} (openai_api_key : string)
    (query_graph_func : Chain → string → result string) (chain : Chain)
    (submitted : option string) (stored : option (list Chat.message))
    (page : list Chat.widget) (turns : list (string * string)) :
  openai_api_key ≠ "" →
  (∀ prompt x, query_graph_func chain prompt = Raise x → ∃ e, x = Exception e) →
  stored = Some (Chat.transcript turns) ∨ (stored = None ∧ turns = []) →
  ∃ displayed,
    Chat.display_chat_history
      (Chat.initialize_chat_history
         {| Chat.messages := stored; Chat.page := page |})
    = (Chat.Done, displayed) ∧
    Chat.messages displayed = Some (Chat.transcript turns) ∧
    (Chat.handle_user_input openai_api_key query_graph_func chain submitted
       displayed).1 = Chat.Done ∧
    ∃ new,
      Chat.messages
        (Chat.handle_user_input openai_api_key query_graph_func chain submitted
           displayed).2
      = Some (Chat.transcript (turns ++ new)%list) ∧
      match Chat.question submitted with
      | Some prompt =>
          ∃ response,
            Chat.reply (query_graph_func chain prompt) = Some response ∧
            new = [(prompt, response)]
      | None => new = []
      end.
Proof.
  intros Hkey Hquery Hstored.
  assert (Chat.initialize_chat_history
            {| Chat.messages := stored; Chat.page := page |}
          = {| Chat.messages := Some (Chat.transcript turns); Chat.page := page |})
    as Hinit.
  { destruct Hstored as [-> | [-> ->]]; reflexivity. }
  rewrite Hinit.
  unfold Chat.display_chat_history. cbn [Chat.messages]. rewrite display_loop.
  cbn [Chat.messages Chat.page].
  eexists. split; [reflexivity|]. split; [reflexivity|].
  unfold Chat.handle_user_input, Chat.question. cbv zeta.
  cbn [Chat.show Chat.messages Chat.page].
  assert (Hturn : ∀ prompt response,
    ((Chat.transcript turns ++ [Chat.Message "user" prompt])
     ++ [Chat.Message "assistant" response])%list
    = Chat.transcript (turns ++ [(prompt, response)])%list).
  { intros prompt response. unfold Chat.transcript.
    rewrite flat_map_app. cbn. by rewrite <- !app_assoc. }
  destruct submitted as [prompt|].
  2: { split; [done|]. exists []. by rewrite app_nil_r. }
  destruct (decide (prompt ≠ "")).
  2: { split; [done|]. exists []. by rewrite app_nil_r. }
  rewrite decide_True by done.
  destruct (query_graph_func chain prompt) as [response|x] eqn:Hanswer.
  - split; [done|]. exists [(prompt, response)].
    cbn [snd Chat.messages Chat.reply]. rewrite Hturn. eauto.
  - destruct (Hquery prompt x Hanswer) as [msg ->].
    split; [done|].
    exists [(prompt, "Sorry, I encountered an error: " +:+ msg)].
    cbn [snd Chat.messages Chat.reply]. rewrite Hturn. eauto.
Qed.

Lemma conversation_alternates_witness :
  ∃ displayed,
    Chat.display_chat_history
      (Chat.initialize_chat_history {| Chat.messages := None; Chat.page := [] |})
    = (Chat.Done, displayed) ∧
    Chat.messages displayed = Some (Chat.transcript []) ∧
    (Chat.handle_user_input "sk-key" Chat.guery_graph
       (λ _, Return ({["result" := "England"]} : gmap string string))
       (Some "Who won in 1966?") displayed).1 = Chat.Done.
Proof.
  destruct (conversation_alternates "sk-key" Chat.guery_graph
              (λ _, Return ({["result" := "England"]} : gmap string string))
              (Some "Who won in 1966?") None [] [])
    as (displayed & Hdisplay & Hhistory & Hdone & _).
  - discriminate.
  - intros prompt x Hx. unfold Chat.guery_graph in Hx.
    rewrite lookup_singleton_eq in Hx. discriminate Hx.
  - right. split; reflexivity.
  - exists displayed. split; [exact Hdisplay|]. split; [exact Hhistory|exact Hdone].
Defined.

(** X24. [guery_graph] hands on what the chain answers under [result]
    and whatever the chain raises; an answer without that entry raises
    [KeyError], which [handle_user_input] turns into the apology that
    quotes the key: no failure of the chain that is an [Exception], and
    no malformed answer, makes the page fail. *)
Theorem chain_failures_become_apologies
    (openai_api_key : string) (chain : string → result (gmap string string))
    (prompt : string) (s : Chat.session) (history : list Chat.message) :
  Chat.messages s = Some history →
  openai_api_key ≠ "" → prompt ≠ "" →
  (∀ code, chain prompt ≠ Raise (SystemExit code)) →
  chain prompt ≠ Raise KeyboardInterrupt →
  (Chat.handle_user_input openai_api_key Chat.guery_graph chain (Some prompt) s).1
  = Chat.Done ∧
  ∃ response,
    Chat.messages
      (Chat.handle_user_input openai_api_key Chat.guery_graph chain
         (Some prompt) s).2
    = Some (history ++ [Chat.Message "user" prompt;
                        Chat.Message "assistant" response])%list ∧
    match chain prompt with
    | Return answer =>
        response = default "Sorry, I encountered an error: 'result'"
                     (answer !! "result")
    | Raise (Exception e) => response = "Sorry, I encountered an error: " +:+ e
    | Raise _ => False
    end.
Proof.
  intros Hs Hkey Hprompt Hexit Hinterrupt.
  unfold Chat.handle_user_input, Chat.guery_graph. cbv zeta.
  cbn [Chat.show Chat.messages Chat.page]. rewrite Hs.
  rewrite !decide_True by done.
  destruct (chain prompt) as [answer|[code| |msg]] eqn:Hchain.
  - destruct (answer !! "result") as [result|];
      (split; [done|]); eexists; cbn; rewrite <- app_assoc; done.
  - by destruct (Hexit code).
  - done.
  - split; [done|]. eexists. cbn. rewrite <- app_assoc. done.
Qed.

Lemma chain_failures_become_apologies_witness :
  (Chat.handle_user_input "sk-key" Chat.guery_graph
     (λ _, Raise (Exception "connection refused")) (Some "Who won in 1966?")
     {| Chat.messages := Some [Chat.greeting]; Chat.page := [] |}).1
  = Chat.Done.
Proof.
  refine (proj1 (chain_failures_become_apologies "sk-key"
            (λ _, Raise (Exception "connection refused")) "Who won in 1966?"
            {| Chat.messages := Some [Chat.greeting]; Chat.page := [] |}
            [Chat.greeting] _ _ _ _ _)).
  - reflexivity.
  - discriminate.
  - discriminate.
  - intros code. discriminate.
  - discriminate.
Defined.
